(** * schedule-service: the channel/schedule HTTP layer, the server start-up
    sequence and the MRSS auto-scheduler

    The development has two parts.  The first embeds the TypeScript of
    [src/api/channels] (the three Fastify route handlers) and of [server.ts]
    (the [start] function) as programs of a small free monad of awaited
    calls, so that one can speak about which store operations a handler
    issues, in which order, and what it replies.  The second part models the
    auto-scheduler (normalizer, placement engine, horizon maintainer and
    reconciler), whose TypeScript is not part of the sources at hand, from
    the prose of the specification. *)

From Stdlib Require Import ZArith List String Bool Lia Sorted.
Import ListNotations.

Local Open Scope Z_scope.
Local Open Scope string_scope.

(** ** JavaScript values *)

(** Values that can be thrown.  [TypeError] is what the engine raises on a
    property access through [undefined]; [StoreError] stands for whatever
    the database client rejects with. *)
Inductive JsError : Type :=
| TypeError (msg : string)
| StoreError (msg : string).

(** The settled state of an awaited promise (or the result of a call that
    may throw). *)
Inductive outcome (A : Type) : Type :=
| Ok (a : A)
| Throw (e : JsError).
Arguments Ok {A} a.
Arguments Throw {A} e.

(** A JavaScript [number] as produced by [dayjs(...).valueOf()]: an integer
    count of milliseconds, or [NaN] for an invalid date. *)
Inductive number : Type :=
| NaN
| Num (z : Z).

(** Truthiness of a value of type [string | undefined]: [undefined] and the
    empty string are falsy, every other string is truthy. *)
Definition truthy (v : option string) : bool :=
  match v with
  | None => false
  | Some s => negb (s =? "")
  end.

(** [`${v}`] for [v : string | undefined]. *)
Definition template (v : option string) : string :=
  match v with
  | None => "undefined"
  | Some s => s
  end.

(** [a !== b] for [a : string] and [b : string | undefined]. *)
Definition strict_neq (a : string) (b : option string) : bool :=
  match b with
  | None => true
  | Some s => negb (a =? s)
  end.

(** [a || b] for [a : string | undefined]. *)
Definition or_default (a : option string) (b : string) : string :=
  match a with
  | Some s => if s =? "" then b else s
  | None => b
  end.

(** ** Asynchronous programs

    A signature names the calls a program may issue to its environment, the
    type each call answers with and the outputs (log lines) it may emit. *)
Record Signature : Type := {
  call : Type;
  answer : call -> Type;
  output : Type
}.

(** An [async] function body: it resolves, rejects, emits an output and goes
    on, or issues a call and continues with the call's outcome.  [Stall] is
    the function whose promise never settles: it returned a thenable that
    nobody settles (the promise of an async function adopts a thenable it is
    resolved with), or it awaits such a promise (and there is no thenable of
    its own). *)
Inductive async (Sig : Signature) (A : Type) : Type :=
| Resolve (a : A)
| Reject (e : JsError)
| Emit (o : output Sig) (k : async Sig A)
| Invoke (c : call Sig) (k : outcome (answer Sig c) -> async Sig A)
| Stall (thenable : option A).
Arguments Resolve {Sig A} a.
Arguments Reject {Sig A} e.
Arguments Emit {Sig A} o k.
Arguments Invoke {Sig A} c k.
Arguments Stall {Sig A} thenable.

Fixpoint bind {Sig : Signature} {A B : Type}
  (p : async Sig A) (f : A -> async Sig B) : async Sig B :=
  match p with
  | Resolve a => f a
  | Reject e => Reject e
  | Emit o k => Emit o (bind k f)
  | Invoke c k => Invoke c (fun r => bind (k r) f)
  | Stall _ => Stall None
  end.

(** [try { p } catch (error) { h error }]. *)
Fixpoint try_catch {Sig : Signature} {A : Type}
  (p : async Sig A) (h : JsError -> async Sig A) : async Sig A :=
  match p with
  | Resolve a => Resolve a
  | Reject e => h e
  | Emit o k => Emit o (try_catch k h)
  | Invoke c k => Invoke c (fun r => try_catch (k r) h)
  | Stall t => Stall t
  end.

(** [await c]: a rejected promise is rethrown at the [await]. *)
Definition await {Sig : Signature} (c : call Sig) : async Sig (answer Sig c) :=
  Invoke c (fun r => match r with
                     | Ok v => Resolve v
                     | Throw e => Reject e
                     end).

Definition emit {Sig : Signature} (o : output Sig) : async Sig unit :=
  Emit o (Resolve tt).

Declare Scope async_scope.
Delimit Scope async_scope with async.
Notation "x <- p ;; q" := (bind p (fun x => q))
  (at level 100, p at next level, right associativity) : async_scope.
Notation "p ;; q" := (bind p (fun _ => q))
  (at level 100, right associativity) : async_scope.

(** What an observer of a run sees, in order. *)
Inductive event (Sig : Signature) : Type :=
| Called (c : call Sig)
| Returned (c : call Sig)
| Threw (c : call Sig) (e : JsError)
| Printed (o : output Sig).
Arguments Called {Sig} c.
Arguments Returned {Sig} c.
Arguments Threw {Sig} c e.
Arguments Printed {Sig} o.

(** The environment answers each call from its state [W] and moves to a new
    state. *)
Definition environment (Sig : Signature) (W : Type) : Type :=
  forall c : call Sig, W -> outcome (answer Sig c) * W.

(** How the promise of an async function ends up: settled, with a value or
    an error, or pending for ever, with the thenable it adopted unsettled. *)
Inductive settlement (A : Type) : Type :=
| Settled (o : outcome A)
| Pending (thenable : option A).
Arguments Settled {A} o.
Arguments Pending {A} thenable.

(** A settled promise is written as its outcome: [settled r = Ok a] reads
    "the promise of the run is fulfilled with [a]". *)
Coercion Settled : outcome >-> settlement.

Record run_result (Sig : Signature) (W A : Type) : Type := {
  settled : settlement A;
  final : W;
  trace : list (event Sig)
}.
Arguments settled {Sig W A} r.
Arguments final {Sig W A} r.
Arguments trace {Sig W A} r.

Definition settle_event {Sig : Signature} (c : call Sig)
  {T : Type} (r : outcome T) : event Sig :=
  match r with
  | Ok _ => Returned c
  | Throw e => Threw c e
  end.

Fixpoint run {Sig : Signature} {W A : Type}
  (env : environment Sig W) (w : W) (p : async Sig A) : run_result Sig W A :=
  match p with
  | Resolve a => {| settled := Ok a; final := w; trace := [] |}
  | Reject e => {| settled := Throw e; final := w; trace := [] |}
  | Emit o k =>
      let r := run env w k in
      {| settled := settled r; final := final r; trace := Printed o :: trace r |}
  | Invoke c k =>
      let '(res, w') := env c w in
      let r := run env w' (k res) in
      {| settled := settled r; final := final r;
         trace := Called c :: settle_event c res :: trace r |}
  | Stall t => {| settled := Pending t; final := w; trace := [] |}
  end.

(** The calls issued during a run, in order. *)
Fixpoint calls_of {Sig : Signature} (t : list (event Sig)) : list (call Sig) :=
  match t with
  | [] => []
  | Called c :: t' => c :: calls_of t'
  | _ :: t' => calls_of t'
  end.

(** [only P p]: every call [p] can issue, however its calls are answered,
    satisfies [P]. *)
Inductive only {Sig : Signature} {A : Type} (P : call Sig -> Prop)
  : async Sig A -> Prop :=
| only_resolve a : only P (Resolve a)
| only_reject e : only P (Reject e)
| only_stall t : only P (Stall t)
| only_emit o k : only P k -> only P (Emit o k)
| only_invoke c k : P c -> (forall r, only P (k r)) -> only P (Invoke c k).

(** ** The models the handlers import

    [../models/channelModel] and [../models/scheduleModel] are imported by
    the handlers but their declarations are not among the sources; the
    handlers use them only through what is listed here.  [ChannelType] is
    the validated request body ([Channel.schema]), of which the handler reads
    [id] and [tenant]; [Channel] is the class, with its constructor and its
    [item] getter; a [ScheduleEvent] is passed through untouched. *)
Class Models : Type := {
  ChannelType : Type;
  body_id : ChannelType -> string;
  body_tenant : ChannelType -> string;
  Channel : Type;
  Channel_new : ChannelType -> Channel;
  Channel_item : Channel -> ChannelType;
  ScheduleEvent : Type
}.

Module ChannelsAPI.

(** [ScheduleRangeOptions]: every field is optional. *)
Record ScheduleRangeOptions : Type := {
  range_date : option string;
  range_start : option number;
  range_end : option number
}.

(** [IAPIScheduleQuery] as Fastify hands it over: a key missing from the
    query string is [undefined], a key given without a value is [""]. *)
Record IAPIScheduleQuery : Type := {
  date : option string;
  start : option string;
  end_ : option string
}.

Record IAPIScheduleParams : Type := {
  channelId : string
}.

(** [request.log.info] and [request.log.error]. *)
Inductive LogEntry : Type :=
| log_info (msg : string)
| log_error (error : JsError).

Section Handlers.
Context {M : Models}.

(** [dayjs(s).valueOf()], from the dayjs package. *)
Variable dayjs_valueOf : string -> number.

(** The operations of [server.db] the handlers call. *)
Inductive dbCall : Type :=
| channels_listAll
| channels_list (tenant : string)
| channels_getChannelById (id : string)
| channels_add (channel : Channel)
| scheduleEvents_getScheduleEventsByChannelId
    (channelId : string) (rangeOpts : ScheduleRangeOptions).

Definition dbAnswer (c : dbCall) : Type :=
  match c with
  | channels_listAll => list Channel
  | channels_list _ => list Channel
  | channels_getChannelById _ => option Channel
  | channels_add _ => unit
  | scheduleEvents_getScheduleEventsByChannelId _ _ => list ScheduleEvent
  end.

Definition dbSig : Signature :=
  {| call := dbCall; answer := dbAnswer; output := LogEntry |}.

(** What was handed to [reply.send]. *)
Inductive Payload : Type :=
| channel_list (channels : list Channel)
| channel_item (item : ChannelType)
| text (s : string)
| schedule_events (events : list ScheduleEvent)
| thrown (error : JsError).

(** The Fastify reply object: the status code set so far and the payload
    sent, if any. *)
Record Reply : Type := {
  statusCode : Z;
  sent : option Payload
}.

Definition code (reply : Reply) (status : Z) : Reply :=
  {| statusCode := status; sent := sent reply |}.

Definition send (reply : Reply) (p : Payload) : Reply :=
  {| statusCode := statusCode reply; sent := Some p |}.

(** [return reply] at the end of an async handler.  The Fastify reply is a
    thenable that settles once the response has been sent, and the promise
    of the handler adopts it: when nothing was sent, the promise stays
    pending and no response goes out. *)
Definition return_ (reply : Reply) : async dbSig Reply :=
  match sent reply with
  | Some _ => Resolve reply
  | None => Stall (Some reply)
  end.

(** The settlement of a handler that ends in [return reply]. *)
Definition adopted (reply : Reply) : settlement Reply :=
  match sent reply with
  | Some _ => Settled (Ok reply)
  | None => Pending (Some reply)
  end.

Local Open Scope async_scope.

(** [GET /channels].  [tenant.match] throws a [TypeError] when the request
    carries no Host header.  The [catch] block returns [reply.code(500)]
    without sending it. *)
Definition get_channels (host : option string) (reply : Reply)
  : async dbSig Reply :=
  let tenant := host in
  try_catch
    match tenant with
    | None =>
        Reject (TypeError "Cannot read properties of undefined (reading 'match')")
    | Some tenant =>
        if prefix "localhost" tenant then
          channels <- await (Sig := dbSig) channels_listAll ;;
          return_ (send (code reply 200) (channel_list channels))
        else
          emit (Sig := dbSig)
            (log_info ("Listing channels for tenant '" ++ tenant ++ "'")) ;;
          channels <- await (Sig := dbSig) (channels_list tenant) ;;
          return_ (send (code reply 200) (channel_list channels))
    end
    (fun error =>
       emit (Sig := dbSig) (log_error error) ;;
       return_ (code reply 500)).

(** [POST /channels].  Every [return] of this handler sends the reply. *)
Definition post_channels (host : option string) (body : ChannelType)
  (reply : Reply) : async dbSig Reply :=
  let tenant := host in
  try_catch
    (if strict_neq (body_tenant body) tenant then
       return_ (send (code reply 400)
                  (text ("Expected tenant to be " ++ template tenant)))
     else
       channel <- await (Sig := dbSig) (channels_getChannelById (body_id body)) ;;
       match channel with
       | Some _ =>
           return_ (send (code reply 400)
                      (text ("Channel with ID " ++ body_id body ++ " already exists")))
       | None =>
           let channel := Channel_new body in
           await (Sig := dbSig) (channels_add channel) ;;
           return_ (send (code reply 200) (channel_item (Channel_item channel)))
       end)
    (fun error =>
       emit (Sig := dbSig) (log_error error) ;;
       return_ (send (code reply 500) (thrown error))).

(** The [rangeOpts] object the schedule handler builds from the query:
    [if (date) { rangeOpts.date = date } else { if (start) ...; if (end) ... }]. *)
Definition rangeOpts_of (query : IAPIScheduleQuery) : ScheduleRangeOptions :=
  if truthy (date query) then
    {| range_date := date query; range_start := None; range_end := None |}
  else
    {| range_date := None;
       range_start := if truthy (start query)
                      then option_map dayjs_valueOf (start query) else None;
       range_end := if truthy (end_ query)
                    then option_map dayjs_valueOf (end_ query) else None |}.

(** [GET /channels/:channelId/schedule].  Here too the [catch] block returns
    [reply.code(500)] without sending it. *)
Definition get_schedule (params : IAPIScheduleParams) (query : IAPIScheduleQuery)
  (reply : Reply) : async dbSig Reply :=
  try_catch
    (let channelId := channelId params in
     let rangeOpts := rangeOpts_of query in
     scheduleEvents <-
       await (Sig := dbSig)
         (scheduleEvents_getScheduleEventsByChannelId channelId rangeOpts) ;;
     return_ (send (code reply 200) (schedule_events scheduleEvents)))
    (fun error =>
       emit (Sig := dbSig) (log_error error) ;;
       return_ (code reply 500)).

(** [server.db]: the store plugin registered from [./src/db/dynamodb], whose
    code is not among the sources.  It is taken as given: the reads answer
    from the store's state, [add] answers and leaves a new state. *)
Record Database (S : Type) : Type := {
  db_listAll : S -> outcome (list Channel);
  db_list : string -> S -> outcome (list Channel);
  db_getChannelById : string -> S -> outcome (option Channel);
  db_add : Channel -> S -> outcome unit * S;
  db_getScheduleEventsByChannelId :
    string -> ScheduleRangeOptions -> S -> outcome (list ScheduleEvent)
}.
Arguments db_listAll {S} d.
Arguments db_list {S} d.
Arguments db_getChannelById {S} d.
Arguments db_add {S} d.
Arguments db_getScheduleEventsByChannelId {S} d.

Definition serve {S : Type} (db : Database S) : environment dbSig S :=
  fun c =>
    match c return S -> outcome (dbAnswer c) * S with
    | channels_listAll => fun s => (db_listAll db s, s)
    | channels_list tenant => fun s => (db_list db tenant s, s)
    | channels_getChannelById id => fun s => (db_getChannelById db id s, s)
    | channels_add channel => fun s => db_add db channel s
    | scheduleEvents_getScheduleEventsByChannelId channelId rangeOpts =>
        fun s => (db_getScheduleEventsByChannelId db channelId rangeOpts s, s)
    end.

(** The calls that write to a store. *)
Definition is_write (c : dbCall) : bool :=
  match c with
  | channels_add _ => true
  | _ => false
  end.

(** The calls that touch the channel store. *)
Definition is_channel_call (c : dbCall) : bool :=
  match c with
  | scheduleEvents_getScheduleEventsByChannelId _ _ => false
  | _ => true
  end.

End Handlers.

Arguments db_listAll {M S} d.
Arguments db_list {M S} d.
Arguments db_getChannelById {M S} d.
Arguments db_add {M S} d.
Arguments db_getScheduleEventsByChannelId {M S} d.
End ChannelsAPI.

(** ** [server.ts] *)
Module Server.

(** What [server.register] is given. *)
Inductive Plugin : Type :=
| plugin_db (uri : string)
| plugin_ChannelsAPI (prefix : string)
| plugin_MRSSAutoSchedulerAPI (prefix : string).

(** [process.env.PORT || 8080]. *)
Inductive Port : Type :=
| port_env (s : string)
| port_number (n : Z).

(** Everything [start] calls on the Fastify instance and on the scheduler.
    A method call on the [MRSSAutoScheduler] instance is recorded with the
    name of the method. *)
Inductive sysCall : Type :=
| fastify_
| server_get (path : string)
| server_register (plugin : Plugin)
| MRSSAutoScheduler_new
| mrssAutoScheduler_ (method : string)
| server_listen (port : Port).

(** [server.listen] hands its callback an address; the other calls return
    nothing [start] looks at. *)
Definition sysAnswer (c : sysCall) : Type :=
  match c with
  | server_listen _ => string
  | _ => unit
  end.

Inductive Console : Type :=
| console_error (err : JsError)
| console_log (line : string)
| process_exit (status : Z).

Definition sysSig : Signature :=
  {| call := sysCall; answer := sysAnswer; output := Console |}.

(** [const dbUrl = process.env.DB || "dynamodb://localhost:5000/eu-north-1"]. *)
Definition dbUrl (env_DB : option string) : string :=
  or_default env_DB "dynamodb://localhost:5000/eu-north-1".

Definition port_of (env_PORT : option string) : Port :=
  match env_PORT with
  | Some s => if s =? "" then port_number 8080 else port_env s
  | None => port_number 8080
  end.

Local Open Scope async_scope.

(** [start].  There is no [try] in it: the first call that throws, or the
    first awaited promise that rejects, rejects [start()] and nothing after
    it runs.  The callback of [server.listen] receives either an error or
    the address. *)
Definition start (env_DB env_PORT : option string) : async sysSig unit :=
  await (Sig := sysSig) fastify_ ;;
  await (Sig := sysSig) (server_get "/") ;;
  await (Sig := sysSig) (server_register (plugin_db (dbUrl env_DB))) ;;
  await (Sig := sysSig) (server_register (plugin_ChannelsAPI "/api/v1")) ;;
  await (Sig := sysSig) (server_register (plugin_MRSSAutoSchedulerAPI "/api/v1")) ;;
  await (Sig := sysSig) MRSSAutoScheduler_new ;;
  await (Sig := sysSig) (mrssAutoScheduler_ "bootstrap") ;;
  await (Sig := sysSig) (mrssAutoScheduler_ "run") ;;
  Invoke (Sig := sysSig) (server_listen (port_of env_PORT))
    (fun r => match r with
              | Throw err =>
                  Emit (Sig := sysSig) (console_error err)
                    (Emit (Sig := sysSig) (process_exit 1) (Resolve tt))
              | Ok address =>
                  Emit (Sig := sysSig)
                    (console_log ("Server listening at " ++ address))
                    (Resolve tt)
              end).

(** Recognisers for the events the start-up properties speak about. *)
Definition invokes (method : string) (e : event sysSig) : bool :=
  match e with
  | Called (mrssAutoScheduler_ m) => m =? method
  | _ => false
  end.

Definition completes (method : string) (e : event sysSig) : bool :=
  match e with
  | Returned (mrssAutoScheduler_ m) => m =? method
  | _ => false
  end.

Definition constructed (e : event sysSig) : bool :=
  match e with
  | Returned MRSSAutoScheduler_new => true
  | _ => false
  end.

Definition listens (e : event sysSig) : bool :=
  match e with
  | Called (server_listen _) => true
  | _ => false
  end.

(** The calls of a start-up on which nothing fails, in program order. *)
Definition startup_sequence (env_DB env_PORT : option string) : list sysCall :=
  [fastify_;
   server_get "/";
   server_register (plugin_db (dbUrl env_DB));
   server_register (plugin_ChannelsAPI "/api/v1");
   server_register (plugin_MRSSAutoSchedulerAPI "/api/v1");
   MRSSAutoScheduler_new;
   mrssAutoScheduler_ "bootstrap";
   mrssAutoScheduler_ "run";
   server_listen (port_of env_PORT)].

Definition scheduler_methods (t : list (event sysSig)) : list string :=
  flat_map (fun e : event sysSig =>
              match e with
              | Called (mrssAutoScheduler_ m) => [m]
              | _ => []
              end) t.

End Server.

(** [occurrences p t]: how many events of [t] satisfy [p]. *)
Definition occurrences {E : Type} (p : E -> bool) (t : list E) : nat :=
  List.length (filter p t).

(** [preceded p q seen t]: every [q]-event of [t] comes after some [p]-event
    ([seen] says whether a [p]-event lies before [t]). *)
Fixpoint preceded {E : Type} (p q : E -> bool) (seen : bool) (t : list E) : bool :=
  match t with
  | [] => true
  | e :: t' => (if q e then seen else true) && preceded p q (seen || p e) t'
  end.

(** [before p q t]: wherever a [q]-event occurs in [t], a [p]-event occurs
    earlier. *)
Definition before {E : Type} (p q : E -> bool) (t : list E) : Prop :=
  forall l1 e l2, t = (l1 ++ e :: l2)%list -> q e = true -> existsb p l1 = true.

(** An environment in which every call of [start] succeeds. *)
Definition healthy : environment Server.sysSig unit :=
  fun c =>
    match c return unit -> outcome (Server.sysAnswer c) * unit with
    | Server.server_listen _ => fun w => (Ok "http://127.0.0.1:8080", w)
    | Server.fastify_ => fun w => (Ok tt, w)
    | Server.server_get _ => fun w => (Ok tt, w)
    | Server.server_register _ => fun w => (Ok tt, w)
    | Server.MRSSAutoScheduler_new => fun w => (Ok tt, w)
    | Server.mrssAutoScheduler_ _ => fun w => (Ok tt, w)
    end.

(** An environment in which the database plugin cannot be registered. *)
Definition no_database : environment Server.sysSig unit :=
  fun c =>
    match c return unit -> outcome (Server.sysAnswer c) * unit with
    | Server.server_register (Server.plugin_db _) =>
        fun w => (Throw (StoreError "connection refused"), w)
    | Server.server_listen _ => fun w => (Ok "http://127.0.0.1:8080", w)
    | Server.fastify_ => fun w => (Ok tt, w)
    | Server.server_get _ => fun w => (Ok tt, w)
    | Server.server_register _ => fun w => (Ok tt, w)
    | Server.MRSSAutoScheduler_new => fun w => (Ok tt, w)
    | Server.mrssAutoScheduler_ _ => fun w => (Ok tt, w)
    end.

(** An environment in which everything succeeds except [server.listen]. *)
Definition port_in_use : environment Server.sysSig unit :=
  fun c =>
    match c return unit -> outcome (Server.sysAnswer c) * unit with
    | Server.server_listen _ => fun w => (Throw (StoreError "EADDRINUSE"), w)
    | Server.fastify_ => fun w => (Ok tt, w)
    | Server.server_get _ => fun w => (Ok tt, w)
    | Server.server_register _ => fun w => (Ok tt, w)
    | Server.MRSSAutoScheduler_new => fun w => (Ok tt, w)
    | Server.mrssAutoScheduler_ _ => fun w => (Ok tt, w)
    end.

(** ** The auto-scheduler

    [./src/auto_scheduler/mrss] is imported by [server.ts] but is not among
    the sources.  Everything in this module follows the specification's
    sections 3 and 4 instead.  Times are integers (epoch time, in whatever
    unit the feed durations use). *)
Module AutoScheduler.

Local Open Scope Z_scope.

(** Modelled from the spec: the status of a ScheduleEvent (section 3),
    [Planned] or [Expired]. *)
Inductive Status : Type :=
| Planned
| Expired.

(** Modelled from the spec: an already-parsed feed entry as the MRSS feed
    source returns it (section 6); the duration may be missing. *)
Record RawFeedItem : Type := {
  raw_guid : string;
  raw_title : string;
  raw_duration : option Z;
  raw_earliest : option Z;
  raw_latest : option Z;
  raw_feed : string
}.

(** Modelled from the spec: PlayableItem (section 3).  Its duration "must be
    > 0", hence [positive]. *)
Record PlayableItem : Type := {
  guid : string;
  title : string;
  duration : positive;
  earliest : option Z;
  latest : option Z;
  feed : string
}.

(** Modelled from the spec: ScheduleEvent (section 3), together with the
    loop counter of section 4.1 that tags the pass over the feed in which
    the event was placed. *)
Record ScheduleEvent : Type := {
  ev_channelId : string;
  ev_start : Z;
  ev_end : Z;
  ev_seq : Z;
  ev_item : string;
  ev_loop : Z;
  ev_status : Status
}.

(** Modelled from the spec: SchedulerCursor (section 3). *)
Record SchedulerCursor : Type := {
  lastScheduledEnd : Z;
  lastFeedRevision : string;
  lastSuccessfulRun : Z
}.

(** Modelled from the spec: the part of a Channel the scheduler reads
    (section 3): its identity, its rolling-horizon length and the retention
    window of section 4.3. *)
Record ChannelConfig : Type := {
  channel_id : string;
  horizon : Z;
  retentionWindow : Z
}.

(** *** 4.1 Feed Item Normalizer *)

(** Modelled from the spec: an item with a missing or non-positive duration
    is dropped (section 4.1). *)
Definition playable (r : RawFeedItem) : list PlayableItem :=
  match raw_duration r with
  | Some (Z.pos d) =>
      [{| guid := raw_guid r; title := raw_title r; duration := d;
          earliest := raw_earliest r; latest := raw_latest r;
          feed := raw_feed r |}]
  | _ => []
  end.

(** Modelled from the spec: deduplication by GUID, keeping the published
    order (section 4.1). *)
Fixpoint dedupe (seen : list string) (items : list PlayableItem)
  : list PlayableItem :=
  match items with
  | [] => []
  | i :: rest =>
      if existsb (String.eqb (guid i)) seen then dedupe seen rest
      else i :: dedupe (guid i :: seen) rest
  end.

(** Modelled from the spec: whether the availability window of an item
    contains the scheduling instant (section 4.1). *)
Definition available (instant : Z) (i : PlayableItem) : bool :=
  match earliest i with
  | Some e => e <=? instant
  | None => true
  end
  &&
  match latest i with
  | Some l => instant <=? l
  | None => true
  end.

(** Modelled from the spec: the Feed Item Normalizer (section 4.1). *)
Definition normalize (instant : Z) (raw : list RawFeedItem) : list PlayableItem :=
  filter (available instant) (dedupe [] (flat_map playable raw)).

(** Modelled from the spec: the dropped items are "reported as warnings, not
    fatal" (section 4.1); the warnings name their GUIDs. *)
Definition warnings (raw : list RawFeedItem) : list string :=
  flat_map (fun r => match playable r with
                     | [] => [raw_guid r]
                     | _ => []
                     end) raw.

(** *** 4.2 Timeline Placement Engine *)

(** Modelled from the spec: the event that airs item [i] from [t] on, with
    [end = start + duration] (section 3). *)
Definition event_of (channelId : string) (t seq loop : Z) (i : PlayableItem)
  : ScheduleEvent :=
  {| ev_channelId := channelId; ev_start := t;
     ev_end := t + Z.pos (duration i); ev_seq := seq;
     ev_item := guid i; ev_loop := loop; ev_status := Planned |}.

(** Modelled from the spec: the placement loop of section 4.2.  Items are
    placed back to back from [t]; when the current pass [rest] over the feed
    is used up, the feed [first :: others] is started again with the loop
    counter incremented; the loop stops once the placed material reaches
    [targetEndTime].  [fuel] bounds the number of events. *)
Fixpoint place_loop (fuel : nat) (channelId : string) (t seq loop : Z)
  (rest : list PlayableItem) (first : PlayableItem) (others : list PlayableItem)
  (targetEndTime : Z) : list ScheduleEvent :=
  match fuel with
  | O => []
  | S fuel' =>
      if targetEndTime <=? t then []
      else
        let i := match rest with
                 | [] => first
                 | i :: _ => i
                 end in
        let rest' := match rest with
                     | [] => others
                     | _ :: r => r
                     end in
        let loop' := match rest with
                     | [] => loop + 1
                     | _ :: _ => loop
                     end in
        event_of channelId t seq loop' i
          :: place_loop fuel' channelId (t + Z.pos (duration i)) (seq + 1) loop'
               rest' first others targetEndTime
  end.

(** Modelled from the spec: the result of [place], which "fails with
    EmptyFeedError if items is empty" (section 4.2). *)
Inductive Placement : Type :=
| EmptyFeedError
| Placed (events : list ScheduleEvent).

(** Modelled from the spec: [place(channelId, cursorTime, items,
    targetEndTime)] of section 4.2; sequence numbers continue from
    [lastSeq], the channel's last known sequence number.  Every item lasts
    at least one unit of time, so [targetEndTime - cursorTime] events are
    always enough. *)
Definition place (channelId : string) (cursorTime lastSeq : Z)
  (items : list PlayableItem) (targetEndTime : Z) : Placement :=
  match items with
  | [] => EmptyFeedError
  | first :: others =>
      Placed (place_loop (Z.to_nat (targetEndTime - cursorTime)) channelId
                cursorTime (lastSeq + 1) 0 items first others targetEndTime)
  end.

(** *** 6 The schedule event store, for one channel *)

(** Modelled from the spec: the idempotency key [(channelId, sequence
    number)] of section 4.4. *)
Definition key (e : ScheduleEvent) : string * Z :=
  (ev_channelId e, ev_seq e).

(** Modelled from the spec: equality of idempotency keys. *)
Definition key_eqb (k1 k2 : string * Z) : bool :=
  (fst k1 =? fst k2)%string && (snd k1 =? snd k2).

(** Modelled from the spec: whether an event with key [k] is stored. *)
Definition has_key (k : string * Z) (store : list ScheduleEvent) : bool :=
  existsb (fun e => key_eqb (key e) k) store.

(** Modelled from the spec: [add(events)], "idempotent by sequence key": an
    insert whose key is already stored is a no-op (sections 4.4 and 6). *)
Fixpoint store_add (events store : list ScheduleEvent) : list ScheduleEvent :=
  match events with
  | [] => store
  | e :: rest =>
      store_add rest (if has_key (key e) store then store else store ++ [e])
  end.

(** Modelled from the spec: the events of a batch that [add] really writes. *)
Fixpoint written (events store : list ScheduleEvent) : list ScheduleEvent :=
  match events with
  | [] => []
  | e :: rest =>
      if has_key (key e) store then written rest store
      else e :: written rest (store ++ [e])
  end.

(** Modelled from the spec: the transition of an event to [Expired]; nothing
    else of the event changes. *)
Definition expire (e : ScheduleEvent) : ScheduleEvent :=
  {| ev_channelId := ev_channelId e; ev_start := ev_start e;
     ev_end := ev_end e; ev_seq := ev_seq e; ev_item := ev_item e;
     ev_loop := ev_loop e; ev_status := Expired |}.

(** Modelled from the spec: [markExpired(events)], a soft delete
    (sections 4.3 and 6). *)
Definition markExpired (events store : list ScheduleEvent) : list ScheduleEvent :=
  map (fun e => if has_key (key e) events then expire e else e) store.

(** Modelled from the spec: the persisted tail the Reconciler reads
    (section 4.4). *)
Fixpoint persisted_tail (store : list ScheduleEvent) : option ScheduleEvent :=
  match store with
  | [] => None
  | [e] => Some e
  | _ :: rest => persisted_tail rest
  end.

(** *** 4.3 Horizon Maintainer and 4.4 Reconciler *)

(** Modelled from the spec: what the scheduler keeps for one channel, the
    persisted events (in the order they were written) and the
    scheduler-private cursor, which does not exist before the first pass. *)
Record ChannelState : Type := {
  persisted : list ScheduleEvent;
  cursor : option SchedulerCursor
}.

(** Modelled from the spec: a channel before its first pass. *)
Definition initial : ChannelState :=
  {| persisted := []; cursor := None |}.

(** Modelled from the spec: [targetEndTime = now + configuredHorizon]
    (section 4.3). *)
Definition targetEndTime (cfg : ChannelConfig) (now : Z) : Z :=
  now + horizon cfg.

(** Modelled from the spec: "if cursor.lastScheduledEnd >= targetEndTime, no
    work is needed (already filled)" (section 4.3). *)
Definition already_filled (cfg : ChannelConfig) (now : Z)
  (c : option SchedulerCursor) : bool :=
  match c with
  | Some c => targetEndTime cfg now <=? lastScheduledEnd c
  | None => false
  end.

(** Modelled from the spec: the trim boundary [now - retentionWindow]
    (section 4.3). *)
Definition trimBoundary (cfg : ChannelConfig) (now : Z) : Z :=
  now - retentionWindow cfg.

(** Modelled from the spec: a Planned event whose [end] lies before the trim
    boundary (section 4.3). *)
Definition stale (cfg : ChannelConfig) (now : Z) (e : ScheduleEvent) : bool :=
  (ev_end e <? trimBoundary cfg now)
  && match ev_status e with
     | Planned => true
     | Expired => false
     end.

(** Modelled from the spec: a write the scheduler performs on the schedule
    event store. *)
Inductive Write : Type :=
| Insert (e : ScheduleEvent)
| MarkExpired (k : string * Z).

(** Modelled from the spec: trimming (section 4.3): the Planned events that
    ended before the trim boundary are marked Expired.  It "runs
    independently of placement", so it is an operation of its own. *)
Definition trim (cfg : ChannelConfig) (now : Z) (st : ChannelState)
  : list Write * ChannelState :=
  let old := filter (stale cfg now) (persisted st) in
  (map (fun e => MarkExpired (key e)) old,
   {| persisted := markExpired old (persisted st); cursor := cursor st |}).

(** Modelled from the spec: what [fetchItems(channel)] answers (section 6):
    [FeedUnavailableError], or the items of the feed at some revision. *)
Inductive FeedFetch : Type :=
| FeedUnavailableError
| Fetched (revision : string) (items : list RawFeedItem).

(** Modelled from the spec: how a pass ends for the channel: nothing to do,
    the timeline was reconciled towards the target, or the channel is
    Starved (section 4.5). *)
Inductive Outcome : Type :=
| Filled
| Reconciled
| Starved.

(** Modelled from the spec: what a pass did: its outcome, whether it asked
    the feed source, the writes it performed on the schedule event store,
    and the state it leaves. *)
Record Pass : Type := {
  outcome : Outcome;
  fetched : bool;
  writes : list Write;
  after : ChannelState
}.

(** Modelled from the spec: the Reconciler derives the cursor from the
    persisted tail (section 4.4); with nothing persisted the timeline starts
    at the current instant. *)
Definition derive_cursorTime (now : Z) (store : list ScheduleEvent) : Z :=
  match persisted_tail store with
  | Some e => ev_end e
  | None => now
  end.

(** Modelled from the spec: the channel's last known sequence number
    (section 4.2). *)
Definition last_sequence (store : list ScheduleEvent) : Z :=
  match persisted_tail store with
  | Some e => ev_seq e
  | None => 0
  end.

(** Modelled from the spec: one reconciliation pass for one channel
    (sections 4.3, 4.4 and 4.5).  [force] is the bootstrap pass, which runs
    "regardless of cursor state"; [feed] is what the feed source would
    answer if asked.  A filled horizon ends the pass at once.  Otherwise the
    feed is fetched and normalized at [now], the cursor is re-derived from
    the persisted tail, the delta is placed and added, and the cursor
    advances. *)
Definition reconcile (cfg : ChannelConfig) (now : Z) (force : bool)
  (feed : FeedFetch) (st : ChannelState) : Pass :=
  if negb force && already_filled cfg now (cursor st) then
    {| outcome := Filled; fetched := false; writes := []; after := st |}
  else
    match feed with
    | FeedUnavailableError =>
        {| outcome := Starved; fetched := true; writes := []; after := st |}
    | Fetched revision items =>
        match place (channel_id cfg)
                (derive_cursorTime now (persisted st))
                (last_sequence (persisted st))
                (normalize now items)
                (targetEndTime cfg now) with
        | EmptyFeedError =>
            {| outcome := Starved; fetched := true; writes := []; after := st |}
        | Placed events =>
            let store := store_add events (persisted st) in
            {| outcome := Reconciled; fetched := true;
               writes := map Insert (written events (persisted st));
               after :=
                 {| persisted := store;
                    cursor := Some {| lastScheduledEnd := derive_cursorTime now store;
                                      lastFeedRevision := revision;
                                      lastSuccessfulRun := now |} |} |}
        end
    end.

(** Modelled from the spec: a pass interrupted "after persisting events but
    before advancing the cursor" (sections 4.4 and 8). *)
Definition interrupted (cfg : ChannelConfig) (now : Z) (force : bool)
  (feed : FeedFetch) (st : ChannelState) : ChannelState :=
  {| persisted := persisted (after (reconcile cfg now force feed st));
     cursor := cursor st |}.

(** Modelled from the spec: the states of a channel the scheduler can be in
    at time [clock]: it starts with nothing persisted and no cursor; time
    passes; passes (bootstrap or tick, completed or interrupted) and trims
    run at the current time. *)
Inductive reachable (cfg : ChannelConfig) : Z -> ChannelState -> Prop :=
| reach_initial clock :
    reachable cfg clock initial
| reach_wait clock clock' st :
    reachable cfg clock st -> clock <= clock' -> reachable cfg clock' st
| reach_reconcile clock st force feed :
    reachable cfg clock st ->
    reachable cfg clock (after (reconcile cfg clock force feed st))
| reach_interrupted clock st force feed :
    reachable cfg clock st ->
    reachable cfg clock (interrupted cfg clock force feed st)
| reach_trim clock st :
    reachable cfg clock st ->
    reachable cfg clock (snd (trim cfg clock st)).

(** *** The properties of a timeline the specification asks for *)

Definition ordered_by_start (l : list ScheduleEvent) : Prop :=
  StronglySorted (fun a b => ev_start a < ev_start b) l.

Definition non_overlapping (l : list ScheduleEvent) : Prop :=
  ForallOrdPairs (fun a b => ev_end a <= ev_start b) l.

Definition contiguous (l : list ScheduleEvent) : Prop :=
  forall i a b,
    nth_error l i = Some a -> nth_error l (S i) = Some b ->
    ev_end a = ev_start b.

(** Every instant of [[from, to)] lies in some event of [l]. *)
Definition covers (l : list ScheduleEvent) (from to : Z) : Prop :=
  forall t, from <= t < to ->
    exists e, In e l /\ ev_start e <= t < ev_end e.

(** A contiguous run of events of channel [ch], each of positive length,
    from time [t] and sequence number [n] to time [t'] and sequence number
    [n']. *)
Inductive chain (ch : string) : Z -> Z -> list ScheduleEvent -> Z -> Z -> Prop :=
| chain_nil t n :
    chain ch t n [] t n
| chain_cons e l t' n' :
    ev_channelId e = ch ->
    ev_start e < ev_end e ->
    chain ch (ev_end e) (ev_seq e) l t' n' ->
    chain ch (ev_start e) (ev_seq e - 1) (e :: l) t' n'.

(** The invariant of the reachable states at time [clock]. *)
Definition well_formed (cfg : ChannelConfig) (clock : Z) (st : ChannelState) : Prop :=
  exists t n t' n',
    chain (channel_id cfg) t n (persisted st) t' n'
    /\ t <= clock
    /\ forall c, cursor st = Some c -> lastScheduledEnd c <= t'.

End AutoScheduler.

(** ** The scheduler orchestrator

    The orchestrator of section 4.5 as a program over the collaborators of
    section 6.  It runs the channels one after the other: the worker pool
    and the timing of ticks and back-off are outside this model. *)
Module Orchestrator.

Import AutoScheduler.
Local Open Scope Z_scope.
Local Open Scope async_scope.

(** Modelled from the spec: what the scheduler can ask of its collaborators
    (section 6): the clock, the channel store, the MRSS feed source and the
    schedule event store.  The channel store is the object the scheduler is
    constructed with, so besides [listAll] and [listByTenant] it offers the
    look-up and the [add] the channel handlers use. *)
Inductive schedCall : Type :=
| sched_now
| sched_listAll
| sched_listByTenant (tenant : string)
| sched_getChannelById (id : string)
| sched_addChannel (channel : ChannelConfig)
| sched_fetchItems (channel : ChannelConfig)
| sched_getScheduleEvents (channelId : string)
| sched_addEvents (events : list ScheduleEvent)
| sched_markExpired (events : list ScheduleEvent).

(** Modelled from the spec: the answers of the collaborators; [fetchItems]
    answers the revision of the feed and its items. *)
Definition schedAnswer (c : schedCall) : Type :=
  match c with
  | sched_now => Z
  | sched_listAll => list ChannelConfig
  | sched_listByTenant _ => list ChannelConfig
  | sched_getChannelById _ => option ChannelConfig
  | sched_addChannel _ => unit
  | sched_fetchItems _ => (string * list RawFeedItem)%type
  | sched_getScheduleEvents _ => list ScheduleEvent
  | sched_addEvents _ => unit
  | sched_markExpired _ => unit
  end.

(** Modelled from the spec: the warnings of the normalizer are the only
    output (section 4.1). *)
Definition schedSig : Signature :=
  {| call := schedCall; answer := schedAnswer; output := string |}.

(** Modelled from the spec: the calls that write to the channel store. *)
Definition channel_write (c : schedCall) : bool :=
  match c with
  | sched_addChannel _ => true
  | _ => false
  end.

(** Modelled from the spec: the calls that touch the channel store at all. *)
Definition channel_call (c : schedCall) : bool :=
  match c with
  | sched_listAll | sched_listByTenant _ | sched_getChannelById _
  | sched_addChannel _ => true
  | _ => false
  end.

(** Modelled from the spec: the scheduler "only observes" the channel store
    (section 6): a call that is no write to the channel store and, if it
    goes to the channel store at all, is [listAll]. *)
Definition observes (c : call schedSig) : Prop :=
  channel_write c = false /\ (channel_call c = true -> c = sched_listAll).

(** Modelled from the spec: the states of a channel (section 4.5). *)
Inductive RunStatus : Type :=
| Idle
| Running
| StarvedChannel
| Failed.

(** Modelled from the spec: the scheduler-owned record of a channel
    (section 9): its status, its cursor, and for a Starved channel the
    current back-off and the ticks still to wait. *)
Record ChannelRun : Type := {
  run_status : RunStatus;
  run_cursor : option SchedulerCursor;
  run_backoff : nat;
  run_wait : nat
}.

(** Modelled from the spec: "an explicit map from channel identity to a
    scheduler-owned state record" (section 9). *)
Definition Registry : Type := list (string * ChannelRun).

Definition fresh : ChannelRun :=
  {| run_status := Idle; run_cursor := None; run_backoff := 0; run_wait := 0 |}.

Fixpoint lookup (id : string) (reg : Registry) : ChannelRun :=
  match reg with
  | [] => fresh
  | (k, r) :: rest => if (k =? id)%string then r else lookup id rest
  end.

Fixpoint update (id : string) (r : ChannelRun) (reg : Registry) : Registry :=
  match reg with
  | [] => [(id, r)]
  | (k, r') :: rest =>
      if (k =? id)%string then (k, r) :: rest else (k, r') :: update id r rest
  end.

(** Modelled from the spec: the limits the specification leaves to
    configuration: the bound on write retries and the cap of the back-off
    (sections 4.5 and 9). *)
Record Limits : Type := {
  write_retries : nat;
  max_backoff : nat
}.

(** Modelled from the spec: [fetchItems], whose failure is
    [FeedUnavailableError], "retryable, not fatal" (section 6). *)
Definition fetch (cfg : ChannelConfig) : async schedSig FeedFetch :=
  try_catch
    (r <- await (Sig := schedSig) (sched_fetchItems cfg) ;;
     Resolve (Fetched (fst r) (snd r)))
    (fun _ => Resolve FeedUnavailableError).

Fixpoint warn (guids : list string) : async schedSig unit :=
  match guids with
  | [] => Resolve tt
  | g :: rest => Emit (Sig := schedSig) g (warn rest)
  end.

(** Modelled from the spec: a write retried a bounded number of times
    (section 4.5). *)
Fixpoint retry (n : nat) (p : async schedSig unit) : async schedSig unit :=
  match n with
  | O => p
  | S n' => try_catch p (fun _ => retry n' p)
  end.

(** The events among the writes of a pass that are inserts. *)
Definition inserted (ws : list Write) : list ScheduleEvent :=
  flat_map (fun w => match w with
                     | Insert e => [e]
                     | MarkExpired _ => []
                     end) ws.

(** Modelled from the spec: one reconciliation pass against the
    collaborators (sections 4.3 and 4.4).  A filled horizon costs neither a
    fetch nor a write; otherwise the feed is fetched, the persisted events
    are read, and the batch computed by [AutoScheduler.reconcile] is added
    to the schedule event store. *)
Definition reconcile_channel (limits : Limits) (force : bool)
  (cfg : ChannelConfig) (c : option SchedulerCursor)
  : async schedSig (Outcome * option SchedulerCursor) :=
  now <- await (Sig := schedSig) sched_now ;;
  if negb force && already_filled cfg now c then Resolve (Filled, c)
  else
    feed <- fetch cfg ;;
    warn match feed with
         | Fetched _ items => warnings items
         | FeedUnavailableError => []
         end ;;
    persisted <- await (Sig := schedSig) (sched_getScheduleEvents (channel_id cfg)) ;;
    let p := reconcile cfg now force feed
               {| persisted := persisted; cursor := c |} in
    match inserted (writes p) with
    | [] => Resolve (outcome p, cursor (after p))
    | events =>
        retry (write_retries limits)
          (await (Sig := schedSig) (sched_addEvents events)) ;;
        Resolve (outcome p, cursor (after p))
    end.

(** Modelled from the spec: trimming against the schedule event store
    (section 4.3). *)
Definition trim_channel (cfg : ChannelConfig) : async schedSig unit :=
  now <- await (Sig := schedSig) sched_now ;;
  persisted <- await (Sig := schedSig) (sched_getScheduleEvents (channel_id cfg)) ;;
  match filter (stale cfg now) persisted with
  | [] => Resolve tt
  | old => await (Sig := schedSig) (sched_markExpired old)
  end.

(** Modelled from the spec: what a pass makes of a channel (section 4.5):
    Starved with a doubled, capped back-off, or Idle again. *)
Definition settle_channel (limits : Limits) (run : ChannelRun)
  (r : Outcome * option SchedulerCursor) : ChannelRun :=
  match fst r with
  | Starved =>
      let backoff := Nat.min (max_backoff limits)
                       (Nat.max 1 (2 * run_backoff run)) in
      {| run_status := StarvedChannel; run_cursor := snd r;
         run_backoff := backoff; run_wait := backoff |}
  | _ =>
      {| run_status := Idle; run_cursor := snd r;
         run_backoff := 0; run_wait := 0 |}
  end.

(** Modelled from the spec: the unit of work for one channel, with its
    fault isolation (sections 4.5 and 7): trimming does not block placement,
    and an error of the pass marks this channel Failed and goes no
    further. *)
Definition step_channel (limits : Limits) (force : bool)
  (cfg : ChannelConfig) (run : ChannelRun) : async schedSig ChannelRun :=
  try_catch
    (try_catch (trim_channel cfg) (fun _ => Resolve tt) ;;
     r <- reconcile_channel limits force cfg (run_cursor run) ;;
     Resolve (settle_channel limits run r))
    (fun _ =>
       Resolve {| run_status := Failed; run_cursor := run_cursor run;
                  run_backoff := 0; run_wait := 0 |}).

Fixpoint each (channels : list ChannelConfig)
  (f : ChannelConfig -> Registry -> async schedSig Registry) (reg : Registry)
  : async schedSig Registry :=
  match channels with
  | [] => Resolve reg
  | cfg :: rest => reg' <- f cfg reg ;; each rest f reg'
  end.

(** Modelled from the spec: bootstrap (section 4.5): "for every known
    channel, force a reconciliation pass regardless of cursor state". *)
Definition bootstrap (limits : Limits) : async schedSig Registry :=
  channels <- await (Sig := schedSig) sched_listAll ;;
  each channels
    (fun cfg reg =>
       run <- step_channel limits true cfg fresh ;;
       Resolve (update (channel_id cfg) run reg))
    [].

(** Modelled from the spec: one tick of the run loop (section 4.5): Idle
    channels are reconciled, a Starved channel waits out its back-off and is
    then retried, a channel still Running is skipped, a Failed channel is
    left alone. *)
Definition tick (limits : Limits) (reg : Registry) : async schedSig Registry :=
  channels <- await (Sig := schedSig) sched_listAll ;;
  each channels
    (fun cfg reg =>
       let run := lookup (channel_id cfg) reg in
       match run_status run with
       | Idle =>
           run' <- step_channel limits false cfg run ;;
           Resolve (update (channel_id cfg) run' reg)
       | StarvedChannel =>
           match run_wait run with
           | O =>
               run' <- step_channel limits false cfg run ;;
               Resolve (update (channel_id cfg) run' reg)
           | S n =>
               Resolve (update (channel_id cfg)
                          {| run_status := StarvedChannel;
                             run_cursor := run_cursor run;
                             run_backoff := run_backoff run;
                             run_wait := n |} reg)
           end
       | Running => Resolve reg
       | Failed => Resolve reg
       end)
    reg.

(** Modelled from the spec: [run()], as a number of ticks. *)
Fixpoint run_loop (limits : Limits) (ticks : nat) (reg : Registry)
  : async schedSig Registry :=
  match ticks with
  | O => Resolve reg
  | S n => reg' <- tick limits reg ;; run_loop limits n reg'
  end.

(** Modelled from the spec: the scheduler as the server starts it:
    [bootstrap()], then [run()]. *)
Definition scheduler (limits : Limits) (ticks : nat) : async schedSig Registry :=
  reg <- bootstrap limits ;; run_loop limits ticks reg.

End Orchestrator.

(** ** A concrete instance of the models and of the store

    A small in-memory stand-in for the DynamoDB plugin and the model
    classes, on which the handlers can be run. *)
Module InMemory.

Import ChannelsAPI.

Record ChannelItem : Type := {
  id : string;
  tenant : string;
  title : string
}.

#[global] Instance models : Models := {|
  ChannelType := ChannelItem;
  body_id := id;
  body_tenant := tenant;
  Channel := ChannelItem;
  Channel_new := fun body => body;
  Channel_item := fun channel => channel;
  ScheduleEvent := AutoScheduler.ScheduleEvent
|}.

Record Tables : Type := {
  channels : list ChannelItem;
  scheduleEvents : list AutoScheduler.ScheduleEvent
}.

Definition in_range (r : ScheduleRangeOptions) (e : AutoScheduler.ScheduleEvent) : bool :=
  match range_start r with
  | Some (Num t) => (t <=? AutoScheduler.ev_start e)%Z
  | _ => true
  end
  &&
  match range_end r with
  | Some (Num t) => (AutoScheduler.ev_end e <=? t)%Z
  | _ => true
  end.

Definition memory : Database Tables := {|
  db_listAll := fun s => Ok (channels s);
  db_list := fun t s => Ok (filter (fun c => tenant c =? t) (channels s));
  db_getChannelById := fun i s => Ok (find (fun c => id c =? i) (channels s));
  db_add := fun c s =>
    (Ok tt, {| channels := channels s ++ [c]; scheduleEvents := scheduleEvents s |});
  db_getScheduleEventsByChannelId := fun i r s =>
    Ok (filter (fun e => (AutoScheduler.ev_channelId e =? i) && in_range r e)
          (scheduleEvents s))
|}.

(** A store that is down: every operation rejects. *)
Definition unreachable : Database Tables := {|
  db_listAll := fun _ => Throw (StoreError "unreachable");
  db_list := fun _ _ => Throw (StoreError "unreachable");
  db_getChannelById := fun _ _ => Throw (StoreError "unreachable");
  db_add := fun _ s => (Throw (StoreError "unreachable"), s);
  db_getScheduleEventsByChannelId := fun _ _ _ => Throw (StoreError "unreachable")
|}.

(** A stand-in for dayjs that knows one instant. *)
Definition dayjs_stub (s : string) : number :=
  if s =? "2021-10-19T00:00:00Z" then Num 1634601600000 else NaN.

Definition news : ChannelItem :=
  {| id := "news"; tenant := "acme.example.com"; title := "News" |}.

Definition sports : ChannelItem :=
  {| id := "sports"; tenant := "other.example.com"; title := "Sports" |}.

Definition opening : AutoScheduler.ScheduleEvent :=
  {| AutoScheduler.ev_channelId := "news";
     AutoScheduler.ev_start := 0; AutoScheduler.ev_end := 30;
     AutoScheduler.ev_seq := 1; AutoScheduler.ev_item := "a";
     AutoScheduler.ev_loop := 0;
     AutoScheduler.ev_status := AutoScheduler.Planned |}.

Definition tables : Tables :=
  {| channels := [news; sports]; scheduleEvents := [opening] |}.

Definition blank : Reply := {| statusCode := 200; sent := None |}.

(** [?date=&start=2021-10-19T00:00:00Z]: the date key is present, with an
    empty value. *)
Definition empty_date_query : IAPIScheduleQuery :=
  {| date := Some ""; start := Some "2021-10-19T00:00:00Z"; end_ := None |}.

(** [?date=2021-10-19&start=2021-10-19T00:00:00Z]. *)
Definition dated_query : IAPIScheduleQuery :=
  {| date := Some "2021-10-19"; start := Some "2021-10-19T00:00:00Z";
     end_ := None |}.

Definition no_query : IAPIScheduleQuery :=
  {| date := None; start := None; end_ := None |}.

Definition kids : ChannelItem :=
  {| id := "kids"; tenant := "acme.example.com"; title := "Kids" |}.

Definition movies : ChannelItem :=
  {| id := "movies"; tenant := "third.example.com"; title := "Movies" |}.

(** A store with the same channels for [acme.example.com] as [tables] and
    different ones for everybody else. *)
Definition other_tables : Tables :=
  {| channels := [movies; news]; scheduleEvents := [] |}.

End InMemory.

(** ** A looping feed

    The feed of the specification's looping scenario: two items of 30 and 45
    minutes on a channel with a two-hour horizon (times in minutes). *)
Module Looping.

Import AutoScheduler.

Definition item_a : PlayableItem :=
  {| guid := "A"; title := "Item A"; duration := 30;
     earliest := None; latest := None; feed := "mrss" |}.

Definition item_b : PlayableItem :=
  {| guid := "B"; title := "Item B"; duration := 45;
     earliest := None; latest := None; feed := "mrss" |}.

Definition raw_a : RawFeedItem :=
  {| raw_guid := "A"; raw_title := "Item A"; raw_duration := Some 30%Z;
     raw_earliest := None; raw_latest := None; raw_feed := "mrss" |}.

Definition raw_b : RawFeedItem :=
  {| raw_guid := "B"; raw_title := "Item B"; raw_duration := Some 45%Z;
     raw_earliest := None; raw_latest := None; raw_feed := "mrss" |}.

Definition channel : ChannelConfig :=
  {| channel_id := "news"; horizon := 120; retentionWindow := 60 |}.

Definition feed_ab : FeedFetch :=
  Fetched "rev-1" [raw_a; raw_b].


End Looping.

(** A world to run the scheduler in: the clock stands at 0, the channel
    store holds the looping channel, the feed has its two items, and the
    state is the schedule event store. *)
Definition scheduler_world
  : environment Orchestrator.schedSig (list AutoScheduler.ScheduleEvent) :=
  fun c =>
    match c return list AutoScheduler.ScheduleEvent
                   -> outcome (Orchestrator.schedAnswer c)
                      * list AutoScheduler.ScheduleEvent with
    | Orchestrator.sched_now => fun w => (Ok 0%Z, w)
    | Orchestrator.sched_listAll => fun w => (Ok [Looping.channel], w)
    | Orchestrator.sched_listByTenant _ => fun w => (Ok [], w)
    | Orchestrator.sched_getChannelById _ => fun w => (Ok None, w)
    | Orchestrator.sched_addChannel _ => fun w => (Ok tt, w)
    | Orchestrator.sched_fetchItems _ =>
        fun w => (Ok ("rev-1", [Looping.raw_a; Looping.raw_b]), w)
    | Orchestrator.sched_getScheduleEvents id =>
        fun w =>
          (Ok (filter (fun e => AutoScheduler.ev_channelId e =? id) w), w)
    | Orchestrator.sched_addEvents events =>
        fun w => (Ok tt, AutoScheduler.store_add events w)
    | Orchestrator.sched_markExpired events =>
        fun w => (Ok tt, AutoScheduler.markExpired events w)
    end.

Definition two_retries : Orchestrator.Limits :=
  {| Orchestrator.write_retries := 2; Orchestrator.max_backoff := 8 |}.


(** ** The range as the specification words it

    The reading of "present" under which a query parameter is present as
    soon as its key occurs in the query string, to be compared with
    [ChannelsAPI.rangeOpts_of]. *)
Definition claimed_rangeOpts (dayjs_valueOf : string -> number)
  (query : ChannelsAPI.IAPIScheduleQuery) : ChannelsAPI.ScheduleRangeOptions :=
  match ChannelsAPI.date query with
  | Some d =>
      {| ChannelsAPI.range_date := Some d;
         ChannelsAPI.range_start := None;
         ChannelsAPI.range_end := None |}
  | None =>
      {| ChannelsAPI.range_date := None;
         ChannelsAPI.range_start := option_map dayjs_valueOf (ChannelsAPI.start query);
         ChannelsAPI.range_end := option_map dayjs_valueOf (ChannelsAPI.end_ query) |}
  end.

(** * Part II: the theorems *)

(** ** The schedule query handler *)
Section ScheduleQuery.
Import ChannelsAPI.
Context {M : Models}.
Variable dayjs_valueOf : string -> number.
Context {S : Type}.
Variable db : Database S.

Local Abbreviation get_schedule := (get_schedule dayjs_valueOf).
Local Abbreviation rangeOpts_of := (rangeOpts_of dayjs_valueOf).

(** What a handler that returns [reply] settles with: the reply itself when
    it was sent; otherwise nothing, and never an error. *)
Lemma adopted_ok (reply reply' : Reply) :
  adopted reply = Ok reply' -> reply' = reply /\ sent reply <> None.
Proof.
  unfold adopted. destruct (sent reply) eqn:Hs; intros [= <-].
  split; [reflexivity | discriminate].
Qed.

Lemma adopted_pending (reply : Reply) t :
  adopted reply = Pending t -> t = Some reply /\ sent reply = None.
Proof.
  unfold adopted. destruct (sent reply) eqn:Hs; intros [= <-].
  split; reflexivity.
Qed.

Lemma adopted_throw (reply : Reply) e : adopted reply <> Throw e.
Proof. unfold adopted. destruct (sent reply); discriminate. Qed.

Lemma adopted_unsent (reply : Reply) :
  sent reply = None -> adopted reply = Pending (Some reply).
Proof. unfold adopted. intros ->. reflexivity. Qed.

(** Whatever answers its calls, the handler issues exactly one, the read of
    the schedule event store, with the range built from the query. *)
Lemma get_schedule_calls_any {W : Type} (env : environment dbSig W) (w : W)
  params query reply :
  calls_of (trace (run env w (get_schedule params query reply)))
  = [scheduleEvents_getScheduleEventsByChannelId
       (channelId params) (rangeOpts_of query)].
Proof.
  unfold ChannelsAPI.get_schedule, return_. simpl.
  destruct (env _ w) as [[events | e] w']; simpl; [reflexivity|].
  destruct (sent reply); reflexivity.
Qed.

Lemma get_schedule_calls (s : S) params query reply :
  calls_of (trace (run (serve db) s (get_schedule params query reply)))
  = [scheduleEvents_getScheduleEventsByChannelId
       (channelId params) (rangeOpts_of query)].
Proof. apply get_schedule_calls_any. Qed.

Lemma get_schedule_ok (s : S) params query reply events :
  db_getScheduleEventsByChannelId db (channelId params) (rangeOpts_of query) s
  = Ok events ->
  run (serve db) s (get_schedule params query reply)
  = {| settled := Ok (send (code reply 200) (schedule_events events));
       final := s;
       trace := [Called (Sig := dbSig)
                   (scheduleEvents_getScheduleEventsByChannelId
                      (channelId params) (rangeOpts_of query));
                 Returned (Sig := dbSig)
                   (scheduleEvents_getScheduleEventsByChannelId
                      (channelId params) (rangeOpts_of query))] |}.
Proof.
  intros H. unfold ChannelsAPI.get_schedule. simpl. rewrite H. reflexivity.
Qed.

Lemma get_schedule_throw (s : S) params query reply e :
  db_getScheduleEventsByChannelId db (channelId params) (rangeOpts_of query) s
  = Throw e ->
  run (serve db) s (get_schedule params query reply)
  = {| settled := adopted (code reply 500);
       final := s;
       trace := [Called (Sig := dbSig)
                   (scheduleEvents_getScheduleEventsByChannelId
                      (channelId params) (rangeOpts_of query));
                 Threw (Sig := dbSig)
                   (scheduleEvents_getScheduleEventsByChannelId
                      (channelId params) (rangeOpts_of query)) e;
                 Printed (Sig := dbSig) (log_error e)] |}.
Proof.
  intros H. unfold ChannelsAPI.get_schedule, return_, adopted. simpl.
  rewrite H. simpl. destruct (sent reply); reflexivity.
Qed.

Lemma get_schedule_reads_only (s : S) params query reply :
  existsb is_write
    (calls_of (trace (run (serve db) s (get_schedule params query reply))))
  = false.
Proof. rewrite get_schedule_calls. reflexivity. Qed.

(** C1 (amended): the range handed to [getScheduleEventsByChannelId] is
    the one built from the query, where a parameter counts only when it is
    present and not the empty string: a non-empty [date] gives a range with
    that date only, whatever [start] and [end] are; otherwise each non-empty
    [start] and [end] is converted with dayjs and placed in the range, and an
    absent or empty one is left out; with no parameter at all the range is
    empty. *)
Theorem C1_range_selection (s : S) params query reply :
  calls_of (trace (run (serve db) s (get_schedule params query reply)))
  = [scheduleEvents_getScheduleEventsByChannelId
       (channelId params) (rangeOpts_of query)]
  /\ (forall d, date query = Some d -> d <> "" ->
        rangeOpts_of query
        = {| range_date := Some d; range_start := None; range_end := None |})
  /\ (date query = None \/ date query = Some "" ->
        range_date (rangeOpts_of query) = None
        /\ (forall t, start query = Some t -> t <> "" ->
              range_start (rangeOpts_of query) = Some (dayjs_valueOf t))
        /\ (start query = None \/ start query = Some "" ->
              range_start (rangeOpts_of query) = None)
        /\ (forall t, end_ query = Some t -> t <> "" ->
              range_end (rangeOpts_of query) = Some (dayjs_valueOf t))
        /\ (end_ query = None \/ end_ query = Some "" ->
              range_end (rangeOpts_of query) = None))
  /\ (date query = None -> start query = None -> end_ query = None ->
        rangeOpts_of query
        = {| range_date := None; range_start := None; range_end := None |}).
Proof.
  split; [apply get_schedule_calls|].
  unfold ChannelsAPI.rangeOpts_of.
  split; [|split].
  - intros d Hd Hne. rewrite Hd. simpl.
    apply String.eqb_neq in Hne. rewrite Hne. reflexivity.
  - intros Hd.
    assert (Hf : truthy (date query) = false)
      by (destruct Hd as [-> | ->]; reflexivity).
    rewrite Hf. simpl. repeat split.
    + intros t Ht Hne. rewrite Ht. simpl.
      apply String.eqb_neq in Hne. rewrite Hne. reflexivity.
    + intros [-> | ->]; reflexivity.
    + intros t Ht Hne. rewrite Ht. simpl.
      apply String.eqb_neq in Hne. rewrite Hne. reflexivity.
    + intros [-> | ->]; reflexivity.
  - intros -> -> ->. reflexivity.
Qed.

(** C2: when the schedule event store answers, the handler replies 200 with
    exactly the list the store returned; the read is the only call it
    issues, it issues no write, and the store is left as it was.  That no
    write is issued holds against any environment at all, whatever it
    answers. *)
Theorem C2_query_passthrough (s : S) params query reply events :
  db_getScheduleEventsByChannelId db (channelId params) (rangeOpts_of query) s
  = Ok events ->
  let r := run (serve db) s (get_schedule params query reply) in
  settled r = Ok (send (code reply 200) (schedule_events events))
  /\ statusCode (send (code reply 200) (schedule_events events)) = 200
  /\ sent (send (code reply 200) (schedule_events events))
     = Some (schedule_events events)
  /\ calls_of (trace r)
     = [scheduleEvents_getScheduleEventsByChannelId
          (channelId params) (rangeOpts_of query)]
  /\ existsb is_write (calls_of (trace r)) = false
  /\ final r = s
  /\ (forall (W : Type) (env : environment dbSig W) (w : W),
        existsb is_write
          (calls_of (trace (run env w (get_schedule params query reply))))
        = false).
Proof.
  intros H r.
  assert (Hany : forall (W : Type) (env : environment dbSig W) (w : W),
             existsb is_write
               (calls_of (trace (run env w (get_schedule params query reply))))
             = false)
    by (intros W env w; rewrite get_schedule_calls_any; reflexivity).
  subst r. rewrite (get_schedule_ok s params query reply events H).
  repeat (split; [reflexivity|]). exact Hany.
Qed.

(** C10: the schedule handler never consults the channel store; for every
    channel id it replies 200 with whatever the schedule event store
    returns, and the only other status it can set is 500, also on a reply it
    leaves unsent: there is no 404. *)
Theorem C10_no_existence_check (s : S) params query reply :
  let r := run (serve db) s (get_schedule params query reply) in
  existsb is_channel_call (calls_of (trace r)) = false
  /\ (forall events,
        db_getScheduleEventsByChannelId db (channelId params)
          (rangeOpts_of query) s = Ok events ->
        settled r = Ok (send (code reply 200) (schedule_events events)))
  /\ (forall reply', settled r = Ok reply' ->
        statusCode reply' = 200 \/ statusCode reply' = 500)
  /\ (forall reply', settled r = Ok reply' -> statusCode reply' <> 404)
  /\ (forall t, settled r = Pending t ->
        exists reply', t = Some reply' /\ statusCode reply' = 500).
Proof.
  intros r. subst r.
  destruct (db_getScheduleEventsByChannelId db (channelId params)
              (rangeOpts_of query) s) as [events | e] eqn:H.
  - rewrite (get_schedule_ok s params query reply events H). simpl.
    repeat split.
    + intros events' [= <-]. reflexivity.
    + intros reply' [= <-]. left. reflexivity.
    + intros reply' [= <-]. simpl. discriminate.
    + intros t [=].
  - rewrite (get_schedule_throw s params query reply e H). simpl.
    repeat split.
    + intros events' [=].
    + intros reply' Hr. apply adopted_ok in Hr. destruct Hr as [-> _].
      right. reflexivity.
    + intros reply' Hr. apply adopted_ok in Hr. destruct Hr as [-> _].
      simpl. discriminate.
    + intros t Hr. apply adopted_pending in Hr. destruct Hr as [-> _].
      eexists. split; reflexivity.
Qed.

End ScheduleQuery.

(** ** What a program can call *)
Section Only.
Context {Sig : Signature}.
Variable P : call Sig -> Prop.

Lemma only_bind {A B : Type} (p : async Sig A) (f : A -> async Sig B) :
  only P p -> (forall a, only P (f a)) -> only P (bind p f).
Proof.
  intros Hp Hf. induction Hp; simpl; try constructor; auto.
Qed.

Lemma only_try_catch {A : Type} (p : async Sig A) (h : JsError -> async Sig A) :
  only P p -> (forall e, only P (h e)) -> only P (try_catch p h).
Proof.
  intros Hp Hh. induction Hp; simpl; try constructor; auto.
Qed.

Lemma only_await (c : call Sig) : P c -> only P (await c).
Proof.
  intros Hc. unfold await. constructor; [exact Hc|].
  intros [v | e]; constructor.
Qed.

(** The calls of a run are calls the program can issue. *)
Lemma only_run {W A : Type} (p : async Sig A) :
  only P p ->
  forall (env : environment Sig W) (w : W),
    Forall P (calls_of (trace (run env w p))).
Proof.
  induction 1 as [a | e | t | o k Hk IH | c k Hc Hk IH]; intros env w; simpl;
    try constructor.
  - apply IH.
  - destruct (env c w) as [res w']. simpl.
    constructor; [exact Hc|].
    destruct res; simpl; apply IH.
Qed.

End Only.

(** ** The scheduler and the channel store *)
Section SchedulerReads.
Import Orchestrator.
Variable limits : Limits.

Ltac observed := split; [reflexivity | intros H; first [reflexivity | discriminate H]].

Lemma fetch_observes cfg : only observes (fetch cfg).
Proof.
  unfold fetch. apply only_try_catch; [|intros; constructor].
  apply only_bind; [apply only_await; observed | intros; constructor].
Qed.

Lemma warn_observes guids : only observes (warn guids).
Proof. induction guids; simpl; constructor; assumption. Qed.

Lemma retry_observes n p : only observes p -> only observes (retry n p).
Proof.
  intros Hp. induction n; simpl; [exact Hp|].
  apply only_try_catch; [exact Hp | intros; exact IHn].
Qed.

Lemma reconcile_channel_observes force cfg c :
  only observes (reconcile_channel limits force cfg c).
Proof.
  unfold reconcile_channel.
  apply only_bind; [apply only_await; observed|]. intros now.
  destruct (negb force && AutoScheduler.already_filled cfg now c);
    [constructor|].
  apply only_bind; [apply fetch_observes|]. intros feed.
  apply only_bind; [apply warn_observes|]. intros _.
  apply only_bind; [apply only_await; observed|]. intros persisted.
  simpl.
  destruct (inserted _); [constructor|].
  apply only_bind; [|intros; constructor].
  apply retry_observes.
  apply (only_await (Sig := schedSig) observes (sched_addEvents _)). observed.
Qed.

Lemma trim_channel_observes cfg : only observes (trim_channel cfg).
Proof.
  unfold trim_channel.
  apply only_bind; [apply only_await; observed|]. intros now.
  apply only_bind; [apply only_await; observed|]. intros persisted.
  destruct (filter _ _); [constructor|].
  apply (only_await (Sig := schedSig) observes (sched_markExpired _)). observed.
Qed.

Lemma step_channel_observes force cfg run :
  only observes (step_channel limits force cfg run).
Proof.
  unfold step_channel. apply only_try_catch; [|intros; constructor].
  apply only_bind.
  - apply only_try_catch; [apply trim_channel_observes | intros; constructor].
  - intros _. apply only_bind; [apply reconcile_channel_observes|].
    intros; constructor.
Qed.

Lemma each_observes channels f :
  (forall cfg reg, only observes (f cfg reg)) ->
  forall reg, only observes (each channels f reg).
Proof.
  intros Hf. induction channels as [|cfg rest IH]; intros reg; simpl.
  - constructor.
  - apply only_bind; [apply Hf | exact IH].
Qed.

Lemma bootstrap_observes : only observes (bootstrap limits).
Proof.
  unfold bootstrap. apply only_bind; [apply only_await; observed|].
  intros channels. apply each_observes. intros cfg reg.
  apply only_bind; [apply step_channel_observes | intros; constructor].
Qed.

Lemma tick_observes reg : only observes (tick limits reg).
Proof.
  unfold tick. apply only_bind; [apply only_await; observed|].
  intros channels. apply each_observes. intros cfg reg'.
  destruct (run_status (lookup (AutoScheduler.channel_id cfg) reg')).
  - apply only_bind; [apply step_channel_observes | intros; constructor].
  - apply only_resolve.
  - destruct (run_wait (lookup (AutoScheduler.channel_id cfg) reg'));
      [|apply only_resolve].
    apply only_bind; [apply step_channel_observes | intros; constructor].
  - apply only_resolve.
Qed.

Lemma run_loop_observes ticks :
  forall reg, only observes (run_loop limits ticks reg).
Proof.
  induction ticks as [|n IH]; intros reg; cbn [run_loop]; [constructor|].
  apply only_bind; [apply tick_observes | exact IH].
Qed.

(** In every run of the scheduler, against any world, no call writes to the
    channel store, and the only call to the channel store is [listAll]. *)
Lemma scheduler_reads_channels {W : Type}
  (env : environment schedSig W) (w : W) ticks c :
  In c (calls_of (trace (run env w (scheduler limits ticks)))) ->
  channel_write c = false /\ (channel_call c = true -> c = sched_listAll).
Proof.
  intros Hin.
  assert (H : only observes (scheduler limits ticks)).
  { unfold scheduler. apply only_bind;
      [apply bootstrap_observes | apply run_loop_observes]. }
  pose proof (only_run observes _ H env w) as Hall.
  rewrite Forall_forall in Hall. exact (Hall c Hin).
Qed.

End SchedulerReads.

Lemma option_string_cases (host : option string) (t : string) :
  host = Some t \/ host <> Some t.
Proof.
  destruct host as [h|]; [|right; discriminate].
  destruct (string_dec h t) as [-> | Hne]; [left; reflexivity|].
  right. intros [= H]. contradiction.
Qed.

(** ** The channel handlers *)
Section ChannelRoutes.
Import ChannelsAPI.
Context {M : Models}.
Context {S : Type}.
Variable db : Database S.

Lemma strict_neq_false (a : string) (b : option string) :
  strict_neq a b = false <-> b = Some a.
Proof.
  destruct b as [b|]; simpl.
  - rewrite negb_false_iff, String.eqb_eq. split; congruence.
  - split; discriminate.
Qed.

Lemma get_channels_no_host (s : S) reply :
  run (serve db) s (get_channels None reply)
  = {| settled := adopted (code reply 500);
       final := s;
       trace := [Printed (Sig := dbSig)
                   (log_error (TypeError
                      "Cannot read properties of undefined (reading 'match')"))] |}.
Proof.
  unfold get_channels, return_, adopted. simpl.
  destruct (sent reply); reflexivity.
Qed.

Lemma get_channels_localhost (s : S) h reply :
  prefix "localhost" h = true ->
  run (serve db) s (get_channels (Some h) reply)
  = match db_listAll db s with
    | Ok channels =>
        {| settled := Ok (send (code reply 200) (channel_list channels));
           final := s;
           trace := [Called (Sig := dbSig) channels_listAll;
                     Returned (Sig := dbSig) channels_listAll] |}
    | Throw e =>
        {| settled := adopted (code reply 500);
           final := s;
           trace := [Called (Sig := dbSig) channels_listAll;
                     Threw (Sig := dbSig) channels_listAll e;
                     Printed (Sig := dbSig) (log_error e)] |}
    end.
Proof.
  intros H. unfold get_channels, return_, adopted. rewrite H. simpl.
  destruct (db_listAll db s); simpl; [reflexivity|].
  destruct (sent reply); reflexivity.
Qed.

Lemma get_channels_tenant (s : S) h reply :
  prefix "localhost" h = false ->
  run (serve db) s (get_channels (Some h) reply)
  = match db_list db h s with
    | Ok channels =>
        {| settled := Ok (send (code reply 200) (channel_list channels));
           final := s;
           trace := [Printed (Sig := dbSig)
                       (log_info ("Listing channels for tenant '" ++ h ++ "'"));
                     Called (Sig := dbSig) (channels_list h);
                     Returned (Sig := dbSig) (channels_list h)] |}
    | Throw e =>
        {| settled := adopted (code reply 500);
           final := s;
           trace := [Printed (Sig := dbSig)
                       (log_info ("Listing channels for tenant '" ++ h ++ "'"));
                     Called (Sig := dbSig) (channels_list h);
                     Threw (Sig := dbSig) (channels_list h) e;
                     Printed (Sig := dbSig) (log_error e)] |}
    end.
Proof.
  intros H. unfold get_channels, return_, adopted. rewrite H. simpl.
  destruct (db_list db h s); simpl; [reflexivity|].
  destruct (sent reply); reflexivity.
Qed.

(** The three shapes a run of [GET /channels] can take. *)
Lemma get_channels_cases (s : S) host reply :
  let r := run (serve db) s (get_channels host reply) in
  final r = s
  /\ existsb is_write (calls_of (trace r)) = false
  /\ ((exists channels, settled r = Ok (send (code reply 200) (channel_list channels))
                        /\ forall c e, ~ In (Threw (Sig := dbSig) c e) (trace r))
      \/ settled r = adopted (code reply 500)).
Proof.
  destruct host as [h|].
  - destruct (prefix "localhost" h) eqn:Hp.
    + intros r. subst r. rewrite (get_channels_localhost s h reply Hp).
      destruct (db_listAll db s) as [channels | e]; simpl; repeat split.
      * left. exists channels. split; [reflexivity|].
        intros c e [H | [H | []]]; discriminate.
      * right. reflexivity.
    + intros r. subst r. rewrite (get_channels_tenant s h reply Hp).
      destruct (db_list db h s) as [channels | e]; simpl; repeat split.
      * left. exists channels. split; [reflexivity|].
        intros c e [H | [H | [H | []]]]; discriminate.
      * right. reflexivity.
  - intros r. subst r. rewrite get_channels_no_host. simpl. repeat split.
    right. reflexivity.
Qed.

(** The runs of [POST /channels], by what the store answers. *)
Lemma post_channels_wrong_tenant (s : S) host body reply :
  host <> Some (body_tenant body) ->
  run (serve db) s (post_channels host body reply)
  = {| settled := Ok (send (code reply 400)
                        (text ("Expected tenant to be " ++ template host)));
       final := s; trace := [] |}.
Proof.
  intros H. unfold post_channels.
  destruct (strict_neq (body_tenant body) host) eqn:E; [reflexivity|].
  apply strict_neq_false in E. contradiction.
Qed.

Lemma post_channels_right_tenant (s : S) body reply :
  run (serve db) s (post_channels (Some (body_tenant body)) body reply)
  = match db_getChannelById db (body_id body) s with
    | Throw e =>
        {| settled := Ok (send (code reply 500) (thrown e));
           final := s;
           trace := [Called (Sig := dbSig) (channels_getChannelById (body_id body));
                     Threw (Sig := dbSig) (channels_getChannelById (body_id body)) e;
                     Printed (Sig := dbSig) (log_error e)] |}
    | Ok (Some _) =>
        {| settled := Ok (send (code reply 400)
                            (text ("Channel with ID " ++ body_id body
                                   ++ " already exists")));
           final := s;
           trace := [Called (Sig := dbSig) (channels_getChannelById (body_id body));
                     Returned (Sig := dbSig) (channels_getChannelById (body_id body))] |}
    | Ok None =>
        match db_add db (Channel_new body) s with
        | (Ok _, s') =>
            {| settled := Ok (send (code reply 200)
                                (channel_item (Channel_item (Channel_new body))));
               final := s';
               trace := [Called (Sig := dbSig) (channels_getChannelById (body_id body));
                         Returned (Sig := dbSig) (channels_getChannelById (body_id body));
                         Called (Sig := dbSig) (channels_add (Channel_new body));
                         Returned (Sig := dbSig) (channels_add (Channel_new body))] |}
        | (Throw e, s') =>
            {| settled := Ok (send (code reply 500) (thrown e));
               final := s';
               trace := [Called (Sig := dbSig) (channels_getChannelById (body_id body));
                         Returned (Sig := dbSig) (channels_getChannelById (body_id body));
                         Called (Sig := dbSig) (channels_add (Channel_new body));
                         Threw (Sig := dbSig) (channels_add (Channel_new body)) e;
                         Printed (Sig := dbSig) (log_error e)] |}
        end
    end.
Proof.
  unfold post_channels.
  assert (E : strict_neq (body_tenant body) (Some (body_tenant body)) = false)
    by (apply strict_neq_false; reflexivity).
  rewrite E. simpl.
  destruct (db_getChannelById db (body_id body) s) as [[existing|] | e]; simpl;
    try reflexivity.
  destruct (db_add db (Channel_new body) s) as [[u | e] s']; reflexivity.
Qed.

Lemma get_channels_reads_only (s : S) host reply :
  existsb is_write
    (calls_of (trace (run (serve db) s (get_channels host reply))))
  = false.
Proof. apply (get_channels_cases s host reply). Qed.

(** C3: [POST /channels] calls [add], with the channel built from the
    body, exactly when the body's tenant is the Host header and the lookup
    of the body's id finds nothing, and it issues no other write.  When the
    tenant differs, or when the id is taken, it replies 400 and the store is
    as before; when [add] succeeds it replies 200 with the new channel's
    item.  The two GET handlers never write.  Nor does the scheduler: in
    every run of [bootstrap()] followed by any number of ticks of [run()],
    in any world, no call writes to the channel store, and the only call to
    the channel store is [listAll]. *)
Theorem C3_channel_creation (s : S) host body reply :
  let r := run (serve db) s (post_channels host body reply) in
  (In (channels_add (Channel_new body)) (calls_of (trace r))
   <-> host = Some (body_tenant body)
       /\ db_getChannelById db (body_id body) s = Ok None)
  /\ (forall c, In c (calls_of (trace r)) -> is_write c = true ->
        c = channels_add (Channel_new body))
  /\ (host <> Some (body_tenant body) ->
        settled r = Ok (send (code reply 400)
                         (text ("Expected tenant to be " ++ template host)))
        /\ final r = s)
  /\ (host = Some (body_tenant body) ->
        forall existing,
          db_getChannelById db (body_id body) s = Ok (Some existing) ->
          settled r = Ok (send (code reply 400)
                           (text ("Channel with ID " ++ body_id body
                                  ++ " already exists")))
          /\ final r = s)
  /\ (host = Some (body_tenant body) ->
        db_getChannelById db (body_id body) s = Ok None ->
        forall s', db_add db (Channel_new body) s = (Ok tt, s') ->
          settled r = Ok (send (code reply 200)
                           (channel_item (Channel_item (Channel_new body))))
          /\ final r = s')
  /\ (forall host' reply',
        existsb is_write
          (calls_of (trace (run (serve db) s (get_channels host' reply')))) = false)
  /\ (forall dayjs_valueOf params query reply',
        existsb is_write
          (calls_of (trace (run (serve db) s
                              (get_schedule dayjs_valueOf params query reply'))))
        = false)
  /\ (forall (W : Type) (env : environment Orchestrator.schedSig W) (w : W)
             limits ticks c,
        In c (calls_of (trace (run env w (Orchestrator.scheduler limits ticks)))) ->
        Orchestrator.channel_write c = false
        /\ (Orchestrator.channel_call c = true -> c = Orchestrator.sched_listAll)).
Proof.
  intros r.
  repeat (match goal with
          | |- _ /\ _ => split
          end);
    [ | | | | | intros; apply get_channels_reads_only
      | intros; apply get_schedule_reads_only
      | intros W env w limits ticks c Hin;
        exact (scheduler_reads_channels limits env w ticks c Hin) ];
    subst r;
    (destruct (option_string_cases host (body_tenant body)) as [-> | Hne];
     [ rewrite post_channels_right_tenant;
       destruct (db_getChannelById db (body_id body) s) as [[existing|] | e] eqn:Hget1;
       [ | destruct (db_add db (Channel_new body) s) as [[[] | e] s'] eqn:Hadd | ]
     | rewrite (post_channels_wrong_tenant s host body reply Hne) ]);
    simpl.
  all: try (intros Hin; repeat (destruct Hin as [Hin | Hin];
                                [try discriminate Hin|]); contradiction).
  all: try (intros [Hh Hg]; congruence).
  all: try (intros c Hin Hw;
            repeat (destruct Hin as [Hin | Hin];
                    [subst c; try discriminate Hw; try reflexivity|]);
            contradiction).
  all: try (intros; congruence).
  all: try (intros; split; congruence).
  all: try (intros; split; reflexivity).
  all: try (intros; split; auto; congruence).
  all: split;
    [ intros Hin; repeat (destruct Hin as [Hin | Hin]; [try discriminate Hin|]);
      contradiction
    | intros [Hh Hg]; congruence ].
Qed.


End ChannelRoutes.

(** ** Tenant isolation and failures of the store *)
Section Isolation.
Import ChannelsAPI.
Context {M : Models}.
Context {S S' : Type}.
Variable db : Database S.
Variable db' : Database S'.

(** C8: on a Host header that starts with [localhost] the reply carries the
    whole result of [listAll]; on any other Host header [h] the handler asks
    the store for the channels of [h] and for nothing else, so two stores
    that answer [list h] alike lead to the same reply and the same trace,
    whatever they hold for other tenants. *)
Theorem C8_tenant_isolation (s : S) (s' : S') (h : string) reply :
  (prefix "localhost" h = true ->
     calls_of (trace (run (serve db) s (get_channels (Some h) reply)))
     = [channels_listAll]
     /\ forall channels, db_listAll db s = Ok channels ->
          settled (run (serve db) s (get_channels (Some h) reply))
          = Ok (send (code reply 200) (channel_list channels)))
  /\ (prefix "localhost" h = false ->
        calls_of (trace (run (serve db) s (get_channels (Some h) reply)))
        = [channels_list h]
        /\ (forall channels, db_list db h s = Ok channels ->
              settled (run (serve db) s (get_channels (Some h) reply))
              = Ok (send (code reply 200) (channel_list channels)))
        /\ (db_list db h s = db_list db' h s' ->
              settled (run (serve db) s (get_channels (Some h) reply))
              = settled (run (serve db') s' (get_channels (Some h) reply))
              /\ trace (run (serve db) s (get_channels (Some h) reply))
                 = trace (run (serve db') s' (get_channels (Some h) reply)))).
Proof.
  split; intros Hp.
  - rewrite (get_channels_localhost db s h reply Hp).
    destruct (db_listAll db s) as [channels | e]; simpl; split;
      try reflexivity.
    + intros channels' [= <-]. reflexivity.
    + intros channels' [=].
  - rewrite (get_channels_tenant db s h reply Hp),
            (get_channels_tenant db' s' h reply Hp).
    split; [|split].
    + destruct (db_list db h s); reflexivity.
    + intros channels Hl. rewrite Hl. reflexivity.
    + intros <-. destruct (db_list db h s); split; reflexivity.
Qed.

Variable dayjs_valueOf : string -> number.

(** C9: when the store operation behind [GET /channels] ([listAll] on a
    localhost Host, [list] otherwise) or behind
    [GET /channels/:channelId/schedule] throws, the handler has made that
    call, catches what it threw and logs it, and sets the status of the reply
    to 500; it sends nothing, issues no further call and no write, and
    leaves the store as it was.  The error does not escape: the promise of the
    handler is never rejected, in any run; on a reply that was not sent
    before, it stays pending with the status-500 reply unsent. *)
Theorem C9_store_failure (s : S) host (h : string) params query reply e :
  (prefix "localhost" h = true -> db_listAll db s = Throw e ->
     run (serve db) s (get_channels (Some h) reply)
     = {| settled := adopted (code reply 500);
          final := s;
          trace := [Called (Sig := dbSig) channels_listAll;
                    Threw (Sig := dbSig) channels_listAll e;
                    Printed (Sig := dbSig) (log_error e)] |})
  /\ (prefix "localhost" h = false -> db_list db h s = Throw e ->
        run (serve db) s (get_channels (Some h) reply)
        = {| settled := adopted (code reply 500);
             final := s;
             trace := [Printed (Sig := dbSig)
                         (log_info ("Listing channels for tenant '" ++ h ++ "'"));
                       Called (Sig := dbSig) (channels_list h);
                       Threw (Sig := dbSig) (channels_list h) e;
                       Printed (Sig := dbSig) (log_error e)] |})
  /\ (db_getScheduleEventsByChannelId db (channelId params)
        (rangeOpts_of dayjs_valueOf query) s = Throw e ->
        run (serve db) s (get_schedule dayjs_valueOf params query reply)
        = {| settled := adopted (code reply 500);
             final := s;
             trace := [Called (Sig := dbSig)
                         (scheduleEvents_getScheduleEventsByChannelId
                            (channelId params) (rangeOpts_of dayjs_valueOf query));
                       Threw (Sig := dbSig)
                         (scheduleEvents_getScheduleEventsByChannelId
                            (channelId params) (rangeOpts_of dayjs_valueOf query)) e;
                       Printed (Sig := dbSig) (log_error e)] |})
  /\ statusCode (code reply 500) = 500
  /\ sent (code reply 500) = sent reply
  /\ (sent reply = None ->
      adopted (code reply 500) = Pending (Some (code reply 500)))
  /\ (forall e',
        settled (run (serve db) s (get_channels host reply)) <> Throw e')
  /\ (forall e',
        settled (run (serve db) s
                   (get_schedule dayjs_valueOf params query reply)) <> Throw e')
  /\ existsb is_write
       (calls_of (trace (run (serve db) s (get_channels host reply)))) = false
  /\ final (run (serve db) s (get_channels host reply)) = s
  /\ existsb is_write
       (calls_of (trace (run (serve db) s
                           (get_schedule dayjs_valueOf params query reply))))
     = false
  /\ final (run (serve db) s (get_schedule dayjs_valueOf params query reply)) = s.
Proof.
  destruct (get_channels_cases db s host reply) as (Hf1 & Hw1 & Hc1).
  split; [intros Hp He; rewrite (get_channels_localhost db s h reply Hp), He;
          reflexivity|].
  split; [intros Hp He; rewrite (get_channels_tenant db s h reply Hp), He;
          reflexivity|].
  split; [intros He;
          exact (get_schedule_throw dayjs_valueOf db s params query reply e He)|].
  split; [reflexivity|].
  split; [reflexivity|].
  split; [intros Hs; apply adopted_unsent; exact Hs|].
  split.
  { intros e' He'.
    destruct Hc1 as [(channels & Hc & _) | Hc]; rewrite Hc in He';
      [discriminate | exact (adopted_throw _ _ He')]. }
  split.
  { intros e'.
    destruct (db_getScheduleEventsByChannelId db (channelId params)
                (rangeOpts_of dayjs_valueOf query) s) as [events | e0] eqn:H.
    - rewrite (get_schedule_ok dayjs_valueOf db s params query reply events H).
      simpl. discriminate.
    - rewrite (get_schedule_throw dayjs_valueOf db s params query reply e0 H).
      simpl. apply adopted_throw. }
  split; [exact Hw1|].
  split; [exact Hf1|].
  split; [apply get_schedule_reads_only|].
  destruct (db_getScheduleEventsByChannelId db (channelId params)
              (rangeOpts_of dayjs_valueOf query) s) as [events | e0] eqn:H.
  - rewrite (get_schedule_ok dayjs_valueOf db s params query reply events H).
    reflexivity.
  - rewrite (get_schedule_throw dayjs_valueOf db s params query reply e0 H).
    reflexivity.
Qed.

End Isolation.

(** ** Start-up *)
Section Startup.
Import Server.

Lemma preceded_before {E : Type} (p q : E -> bool) (t : list E) :
  forall seen, preceded p q seen t = true ->
  forall l1 e l2, t = (l1 ++ e :: l2)%list -> q e = true ->
    seen || existsb p l1 = true.
Proof.
  induction t as [|x t IH]; intros seen H l1 e l2 Ht Hq.
  - destruct l1; discriminate.
  - simpl in H. apply andb_true_iff in H. destruct H as [Hx Ht'].
    destruct l1 as [|y l1]; simpl in Ht; injection Ht as <- ->.
    + rewrite Hq in Hx. rewrite Hx. reflexivity.
    + specialize (IH _ Ht' l1 e l2 eq_refl Hq). simpl.
      rewrite orb_assoc. exact IH.
Qed.

Lemma preceded_sound {E : Type} (p q : E -> bool) (t : list E) :
  preceded p q false t = true -> before p q t.
Proof.
  intros H l1 e l2 Ht Hq.
  exact (preceded_before p q t false H l1 e l2 Ht Hq).
Qed.

Context {W : Type}.
Variable env : environment sysSig W.

(** The checks behind the start-up theorem, computed on every possible run
    of [start]: a run is determined by which call, if any, fails first. *)
Lemma start_checks (w : W) env_DB env_PORT :
  let t := trace (run env w (start env_DB env_PORT)) in
  (occurrences (invokes "bootstrap") t
   = if existsb constructed t then 1%nat else 0%nat)
  /\ preceded (completes "bootstrap") (invokes "run") false t = true
  /\ preceded (completes "bootstrap") listens false t = true
  /\ preceded (completes "run") listens false t = true
  /\ (occurrences listens t
      = if existsb (completes "run") t then 1%nat else 0%nat)
  /\ forallb (fun m => (m =? "bootstrap") || (m =? "run")) (scheduler_methods t)
     = true
  /\ (settled (run env w (start env_DB env_PORT)) = Ok tt ->
      calls_of t = startup_sequence env_DB env_PORT).
Proof.
  unfold start, startup_sequence. simpl.
  repeat (match goal with
          | |- context [env ?c ?w] =>
              let res := fresh "res" in
              let w' := fresh "w" in
              destruct (env c w) as [res w'];
              destruct res as [? | ?]; simpl
          end);
    repeat split; intros [=].
Qed.

(** C4: in every run of [start], [bootstrap()] is invoked at most once, and
    exactly once as soon as the scheduler has been constructed; [run()] is
    invoked only after [bootstrap()] has completed; [server.listen] is called
    only after both have completed, and it is called once [run()] has
    completed; no method of the scheduler other than [bootstrap] and [run]
    is ever invoked; and when [start()] resolves, the calls made are exactly
    the start-up sequence, with [bootstrap], [run] and [listen] last and in
    that order. *)
Theorem C4_startup_order (w : W) env_DB env_PORT :
  let t := trace (run env w (start env_DB env_PORT)) in
  (occurrences (invokes "bootstrap") t <= 1)%nat
  /\ (existsb constructed t = true ->
      occurrences (invokes "bootstrap") t = 1%nat)
  /\ before (completes "bootstrap") (invokes "run") t
  /\ before (completes "bootstrap") listens t
  /\ before (completes "run") listens t
  /\ (existsb (completes "run") t = true -> occurrences listens t = 1%nat)
  /\ (forall m, In m (scheduler_methods t) -> m = "bootstrap" \/ m = "run")
  /\ (settled (run env w (start env_DB env_PORT)) = Ok tt ->
      calls_of t = startup_sequence env_DB env_PORT).
Proof.
  intros t.
  destruct (start_checks w env_DB env_PORT)
    as (Hb & Hr & Hl1 & Hl2 & Hl & Hm & Hs).
  fold t in Hb, Hr, Hl1, Hl2, Hl, Hm, Hs.
  split; [rewrite Hb; destruct (existsb constructed t); lia|].
  split; [intros Hc; rewrite Hb, Hc; reflexivity|].
  split; [apply preceded_sound; exact Hr|].
  split; [apply preceded_sound; exact Hl1|].
  split; [apply preceded_sound; exact Hl2|].
  split; [intros Hc; rewrite Hl, Hc; reflexivity|].
  split; [|exact Hs].
  intros m Hin.
  rewrite forallb_forall in Hm. specialize (Hm m Hin).
  apply orb_true_iff in Hm. destruct Hm as [Hm | Hm];
    apply String.eqb_eq in Hm; auto.
Qed.

End Startup.

(** On a healthy start-up everything happens, once and in order. *)
Lemma C4_startup_witness :
  existsb Server.constructed
    (trace (run healthy tt (Server.start None None))) = true
  /\ occurrences (Server.invokes "bootstrap")
       (trace (run healthy tt (Server.start None None))) = 1%nat
  /\ occurrences Server.listens
       (trace (run healthy tt (Server.start None None))) = 1%nat.
Proof.
  split; [reflexivity|].
  split.
  - apply (C4_startup_order healthy tt None None). reflexivity.
  - apply (C4_startup_order healthy tt None None). reflexivity.
Defined.

(** When the database plugin cannot be registered, [start()] rejects before
    the scheduler exists and [bootstrap()] is never invoked. *)
Example start_without_database :
  settled (run no_database tt (Server.start None None))
  = Throw (StoreError "connection refused")
  /\ occurrences (Server.invokes "bootstrap")
       (trace (run no_database tt (Server.start None None))) = 0%nat.
Proof. split; reflexivity. Qed.

(** ** The auto-scheduler: chains of events *)
Section Chains.
Import AutoScheduler.
Local Open Scope Z_scope.
Local Open Scope list_scope.
Variable ch : string.

Lemma chain_app t n l1 t1 n1 l2 t2 n2 :
  chain ch t n l1 t1 n1 -> chain ch t1 n1 l2 t2 n2 ->
  chain ch t n (l1 ++ l2) t2 n2.
Proof.
  intros H1 H2. induction H1; simpl.
  - exact H2.
  - constructor; auto.
Qed.

Lemma chain_bounds t n l t' n' :
  chain ch t n l t' n' ->
  t <= t' /\ n <= n'
  /\ Forall (fun e => t <= ev_start e /\ ev_end e <= t'
                      /\ n < ev_seq e <= n') l.
Proof.
  induction 1 as [t n | e l t' n' Hc Hpos Hch (Ht & Hn & Hall)].
  - repeat split; try lia. constructor.
  - repeat split; try lia. constructor.
    + lia.
    + eapply Forall_impl; [|exact Hall]. simpl. intros x. lia.
Qed.

Lemma chain_tail t n l t' n' :
  chain ch t n l t' n' -> l <> [] ->
  exists e, persisted_tail l = Some e /\ ev_end e = t' /\ ev_seq e = n'.
Proof.
  induction 1 as [t n | e l t' n' Hc Hpos Hch IH]; intros Hne.
  - contradiction.
  - destruct l as [|e' l'].
    + inversion Hch; subst. exists e. repeat split.
    + destruct IH as (x & Hx & Hend & Hseq); [discriminate|].
      exists x. repeat split; assumption.
Qed.

Lemma chain_ordered t n l t' n' :
  chain ch t n l t' n' -> ordered_by_start l.
Proof.
  induction 1 as [t n | e l t' n' Hc Hpos Hch IH].
  - constructor.
  - constructor; [exact IH|].
    destruct (chain_bounds _ _ _ _ _ Hch) as (_ & _ & Hall).
    eapply Forall_impl; [|exact Hall]. simpl. intros x. lia.
Qed.

Lemma chain_non_overlapping t n l t' n' :
  chain ch t n l t' n' -> non_overlapping l.
Proof.
  induction 1 as [t n | e l t' n' Hc Hpos Hch IH].
  - constructor.
  - constructor; [|exact IH].
    destruct (chain_bounds _ _ _ _ _ Hch) as (_ & _ & Hall).
    eapply Forall_impl; [|exact Hall]. simpl. intros x. lia.
Qed.

Lemma chain_contiguous t n l t' n' :
  chain ch t n l t' n' -> contiguous l.
Proof.
  induction 1 as [t n | e l t' n' Hc Hpos Hch IH]; intros i a b Ha Hb.
  - destruct i; discriminate.
  - destruct i as [|i]; simpl in Ha, Hb.
    + injection Ha as <-. destruct l as [|b' l']; [discriminate|].
      injection Hb as <-. inversion Hch; subst. congruence.
    + exact (IH i a b Ha Hb).
Qed.

Lemma chain_covers t n l t' n' :
  chain ch t n l t' n' -> covers l t t'.
Proof.
  induction 1 as [t n | e l t' n' Hc Hpos Hch IH]; intros x Hx.
  - lia.
  - destruct (Z_lt_ge_dec x (ev_end e)) as [Hlt | Hge].
    + exists e. split; [left; reflexivity | lia].
    + destruct (IH x) as (y & Hin & Hy); [lia|].
      exists y. split; [right; exact Hin | exact Hy].
Qed.

Lemma covers_narrow l a b a' b' :
  covers l a b -> a <= a' -> b' <= b -> covers l a' b'.
Proof. intros H Ha Hb x Hx. apply H. lia. Qed.

(** Marking events Expired leaves a chain a chain. *)
Lemma chain_markExpired events t n l t' n' :
  chain ch t n l t' n' -> chain ch t n (markExpired events l) t' n'.
Proof.
  induction 1 as [t n | e l t' n' Hc Hpos Hch IH]; simpl.
  - constructor.
  - destruct (has_key (key e) events).
    + apply (chain_cons ch (expire e)); assumption.
    + constructor; assumption.
Qed.

(** A key above every stored sequence number is not in the store. *)
Lemma has_key_above m store e :
  Forall (fun x => ev_seq x <= m) store -> m < ev_seq e ->
  has_key (key e) store = false.
Proof.
  intros Hall Hlt. unfold has_key. induction Hall as [|x l Hx Hall IH]; simpl.
  - reflexivity.
  - rewrite IH. unfold key_eqb, key. simpl.
    replace (ev_seq x =? ev_seq e) with false
      by (symmetry; apply Z.eqb_neq; lia).
    rewrite andb_false_r. reflexivity.
Qed.

(** Adding a chain that continues the stored sequence numbers appends it,
    and every event of it is really written. *)
Lemma store_add_chain t m events t' n' :
  chain ch t m events t' n' ->
  forall store, Forall (fun x => ev_seq x <= m) store ->
    store_add events store = store ++ events
    /\ written events store = events.
Proof.
  induction 1 as [t n | e l t' n' Hc Hpos Hch IH]; intros store Hall; simpl.
  - rewrite app_nil_r. split; reflexivity.
  - rewrite (has_key_above (ev_seq e - 1) store e Hall) by lia.
    destruct (IH (store ++ [e])) as [Ha Hw].
    { apply Forall_app. split.
      - eapply Forall_impl; [|exact Hall]. simpl. intros x. lia.
      - constructor; [lia | constructor]. }
    rewrite Ha, Hw, <- app_assoc. split; reflexivity.
Qed.

(** The placement loop, given enough fuel, produces a chain that starts at
    the cursor and reaches the target. *)
Lemma place_loop_chain first others target :
  forall fuel t seq loop rest,
    (Z.to_nat (target - t) <= fuel)%nat ->
    exists t' n',
      chain ch t (seq - 1)
        (place_loop fuel ch t seq loop rest first others target) t' n'
      /\ target <= t'.
Proof.
  induction fuel as [|fuel IH]; intros t seq loop rest Hfuel; simpl.
  - exists t, (seq - 1). split; [constructor | lia].
  - destruct (target <=? t) eqn:Hle.
    + apply Z.leb_le in Hle. exists t, (seq - 1). split; [constructor | lia].
    + apply Z.leb_gt in Hle.
      set (i := match rest with [] => first | i :: _ => i end).
      set (rest' := match rest with [] => others | _ :: r => r end).
      set (loop' := match rest with [] => loop + 1 | _ :: _ => loop end).
      destruct (IH (t + Z.pos (duration i)) (seq + 1) loop' rest')
        as (t' & n' & Hch & Ht').
      { lia. }
      exists t', n'. split; [|exact Ht'].
      replace (seq + 1 - 1) with seq in Hch by lia.
      apply (chain_cons ch (event_of ch t seq loop' i)); simpl; try reflexivity.
      * lia.
      * exact Hch.
Qed.

End Chains.

(** ** The auto-scheduler: one reconciliation pass *)
Section Reconciliation.
Import AutoScheduler.
Local Open Scope Z_scope.
Local Open Scope list_scope.
Variable cfg : ChannelConfig.

Lemma place_loop_filled fuel chan t seq loop rest first others target :
  target <= t ->
  place_loop fuel chan t seq loop rest first others target = [].
Proof.
  intros H. destruct fuel; simpl; [reflexivity|].
  apply Z.leb_le in H. rewrite H. reflexivity.
Qed.

Lemma derive_cursorTime_chain now t n l t' n' :
  chain (channel_id cfg) t n l t' n' -> l <> [] ->
  derive_cursorTime now l = t' /\ last_sequence l = n'.
Proof.
  intros Hch Hne.
  destruct (chain_tail _ _ _ _ _ _ Hch Hne) as (e & He & Hend & Hseq).
  unfold derive_cursorTime, last_sequence. rewrite He. split; assumption.
Qed.

(** What placing the delta does to a well-formed channel: the new events
    are appended to the persisted ones, all of them are written, and the
    result is a chain that started no later than [now] and reaches the
    target. *)
Lemma extend_chain clock st now first others :
  well_formed cfg clock st -> clock <= now ->
  let events :=
    place_loop
      (Z.to_nat (targetEndTime cfg now - derive_cursorTime now (persisted st)))
      (channel_id cfg) (derive_cursorTime now (persisted st))
      (last_sequence (persisted st) + 1) 0 (first :: others) first others
      (targetEndTime cfg now) in
  exists t n t' n',
    store_add events (persisted st) = persisted st ++ events
    /\ written events (persisted st) = events
    /\ chain (channel_id cfg) t n (persisted st ++ events) t' n'
    /\ t <= now
    /\ targetEndTime cfg now <= t'
    /\ derive_cursorTime now (persisted st ++ events) = t'
    /\ (forall c, cursor st = Some c -> lastScheduledEnd c <= t')
    /\ (targetEndTime cfg now <= derive_cursorTime now (persisted st) ->
        events = []).
Proof.
  intros (t & n & t1 & n1 & Hch & Ht & Hcur) Hclock events.
  assert (Hfilled : targetEndTime cfg now <= derive_cursorTime now (persisted st) ->
                    events = [])
    by (intros H; apply place_loop_filled; exact H).
  destruct (place_loop_chain (channel_id cfg) first others (targetEndTime cfg now)
              (Z.to_nat (targetEndTime cfg now - derive_cursorTime now (persisted st)))
              (derive_cursorTime now (persisted st))
              (last_sequence (persisted st) + 1) 0 (first :: others))
    as (t2 & n2 & Hev & Htarget); [lia|].
  fold events in Hev.
  replace (last_sequence (persisted st) + 1 - 1)
    with (last_sequence (persisted st)) in Hev by lia.
  destruct (chain_bounds _ _ _ _ _ _ Hev) as (Hle2 & _ & _).
  destruct (persisted st) as [|e0 l0] eqn:Hst.
  - (* nothing persisted yet: the timeline starts now *)
    inversion Hch; subst.
    unfold derive_cursorTime, last_sequence in Hev, Hle2; simpl in Hev, Hle2.
    destruct (store_add_chain _ _ _ _ _ _ Hev []) as [Ha Hw]; [constructor|].
    exists now, 0, t2, n2. simpl.
    repeat split; try assumption; try lia.
    + destruct events as [|e l] eqn:He.
      * inversion Hev; subst. reflexivity.
      * apply (derive_cursorTime_chain now _ _ _ _ _ Hev). discriminate.
    + intros c Hc. specialize (Hcur c Hc). lia.
  - (* the timeline continues from the persisted tail *)
    destruct (derive_cursorTime_chain now _ _ _ _ _ Hch) as [Hd Hs];
      [discriminate|].
    rewrite Hd, Hs in Hev. rewrite Hd in Hle2.
    destruct (chain_bounds _ _ _ _ _ _ Hch) as (_ & _ & Hall).
    destruct (store_add_chain _ _ _ _ _ _ Hev (e0 :: l0)) as [Ha Hw].
    { eapply Forall_impl; [|exact Hall]. simpl. intros x. lia. }
    pose proof (chain_app _ _ _ _ _ _ _ _ _ Hch Hev) as Hall2.
    exists t, n, t2, n2.
    repeat split; try assumption; try lia.
    + apply (derive_cursorTime_chain now _ _ _ _ _ Hall2). discriminate.
    + intros c Hc. specialize (Hcur c Hc). lia.
Qed.

(** Every pass either finds the horizon filled, or starves on the feed (in
    both cases the channel is left as it was and nothing is written), or
    appends a batch of new events, all of them written, after which the
    timeline is a chain that reaches the target and the cursor stands at its
    end. *)
Lemma reconcile_cases clock st now force feed :
  well_formed cfg clock st -> clock <= now ->
  let p := reconcile cfg now force feed st in
  (outcome p = Filled /\ after p = st /\ writes p = [] /\ fetched p = false
   /\ force = false /\ already_filled cfg now (cursor st) = true)
  \/ (outcome p = Starved /\ after p = st /\ writes p = []
      /\ (feed = FeedUnavailableError
          \/ exists revision items,
               feed = Fetched revision items /\ normalize now items = []))
  \/ (exists events revision t n t' n',
        outcome p = Reconciled
        /\ persisted (after p) = persisted st ++ events
        /\ writes p = map Insert events
        /\ cursor (after p)
           = Some {| lastScheduledEnd := t'; lastFeedRevision := revision;
                     lastSuccessfulRun := now |}
        /\ chain (channel_id cfg) t n (persisted st ++ events) t' n'
        /\ t <= now
        /\ targetEndTime cfg now <= t'
        /\ (forall c, cursor st = Some c -> lastScheduledEnd c <= t')
        /\ (targetEndTime cfg now <= derive_cursorTime now (persisted st) ->
            events = [])).
Proof.
  intros Hwf Hclock p. subst p. unfold reconcile.
  destruct (negb force && already_filled cfg now (cursor st)) eqn:Htest.
  { left. apply andb_true_iff in Htest. destruct Htest as [Hf Ha].
    apply negb_true_iff in Hf. simpl. repeat split; assumption. }
  destruct feed as [|revision items].
  { right. left. simpl. repeat split. left. reflexivity. }
  unfold place.
  destruct (normalize now items) as [|first others] eqn:Hn.
  { right. left. simpl. repeat split. right. exists revision, items.
    split; [reflexivity | exact Hn]. }
  destruct (extend_chain clock st now first others Hwf Hclock)
    as (t & n & t' & n' & Ha & Hw & Hch & Ht & Htarget & Hd & Hcur & Hfilled).
  right. right. simpl.
  exists (place_loop
            (Z.to_nat (targetEndTime cfg now - derive_cursorTime now (persisted st)))
            (channel_id cfg) (derive_cursorTime now (persisted st))
            (last_sequence (persisted st) + 1) 0 (first :: others) first others
            (targetEndTime cfg now)),
    revision, t, n, t', n'.
  rewrite Ha, Hw, Hd. repeat split; assumption.
Qed.

Lemma key_eqb_refl k : key_eqb k k = true.
Proof.
  unfold key_eqb. rewrite String.eqb_refl, Z.eqb_refl. reflexivity.
Qed.

Lemma has_key_member e store :
  In e store -> has_key (key e) store = true.
Proof.
  intros Hin. unfold has_key. apply existsb_exists.
  exists e. split; [exact Hin | apply key_eqb_refl].
Qed.

(** Trimming twice at the same instant: the second trim finds nothing left
    to mark and writes nothing. *)
Lemma trim_idempotent now st :
  fst (trim cfg now (snd (trim cfg now st))) = []
  /\ snd (trim cfg now (snd (trim cfg now st))) = snd (trim cfg now st).
Proof.
  unfold trim. simpl.
  set (old := filter (stale cfg now) (persisted st)).
  assert (Hnone : filter (stale cfg now) (markExpired old (persisted st)) = []).
  { assert (H : forall l,
               (forall x, In x l -> stale cfg now x = true -> In x old) ->
               filter (stale cfg now) (markExpired old l) = []).
    { induction l as [|x l IH]; intros Hl; simpl; [reflexivity|].
      rewrite IH by (intros y Hy; apply Hl; right; exact Hy).
      destruct (has_key (key x) old) eqn:Hk.
      - unfold stale at 1. simpl. rewrite andb_false_r. reflexivity.
      - destruct (stale cfg now x) eqn:Hs; [|reflexivity].
        rewrite (has_key_member x old) in Hk by (apply Hl; [left|]; auto).
        discriminate. }
    apply H. intros x Hx Hs. apply filter_In. split; assumption. }
  rewrite Hnone. simpl. split; [reflexivity|].
  f_equal. unfold markExpired at 1. simpl.
  rewrite <- (map_id (markExpired old (persisted st))) at 2.
  apply map_ext. reflexivity.
Qed.

(** Every reachable state is well formed. *)
Lemma reachable_well_formed clock st :
  reachable cfg clock st -> well_formed cfg clock st.
Proof.
  induction 1 as [clock | clock clock' st Hr IH Hle
                  | clock st force feed Hr IH
                  | clock st force feed Hr IH
                  | clock st Hr IH].
  - exists clock, 0, clock, 0. split; [constructor|].
    split; [lia|]. intros c [=].
  - destruct IH as (t & n & t' & n' & Hch & Ht & Hcur).
    exists t, n, t', n'. repeat split; try assumption. lia.
  - destruct (reconcile_cases clock st clock force feed IH (Z.le_refl _))
      as [(_ & -> & _) | [(_ & -> & _) |
          (events & revision & t & n & t' & n' & _ & Hp & _ & Hc
           & Hch & Ht & _ & _ & _)]]; [exact IH | exact IH |].
    exists t, n, t', n'. rewrite Hp. repeat split; try assumption.
    intros c Hc'. rewrite Hc in Hc'. injection Hc' as <-. simpl. lia.
  - unfold interrupted.
    destruct (reconcile_cases clock st clock force feed IH (Z.le_refl _))
      as [(_ & -> & _) | [(_ & -> & _) |
          (events & revision & t & n & t' & n' & _ & Hp & _ & _
           & Hch & Ht & _ & Hcur & _)]].
    + destruct st; exact IH.
    + destruct st; exact IH.
    + exists t, n, t', n'. rewrite Hp. simpl. repeat split; assumption.
  - destruct IH as (t & n & t' & n' & Hch & Ht & Hcur).
    exists t, n, t', n'. simpl. repeat split; try assumption.
    apply chain_markExpired. exact Hch.
Qed.

End Reconciliation.

(** ** The auto-scheduler: the specification's properties *)
Section Properties.
Import AutoScheduler.
Local Open Scope Z_scope.
Local Open Scope list_scope.
Variable cfg : ChannelConfig.

(** After a pass on a non-empty normalized feed the cursor has reached the
    target: the horizon is filled. *)
Lemma reconcile_fills clock st now force revision items :
  reachable cfg clock st -> clock <= now ->
  normalize now items <> [] ->
  already_filled cfg now
    (cursor (after (reconcile cfg now force (Fetched revision items) st)))
  = true.
Proof.
  intros Hr Hclock Hne.
  pose proof (reachable_well_formed cfg clock st Hr) as Hwf.
  destruct (reconcile_cases cfg clock st now force (Fetched revision items)
              Hwf Hclock)
    as [(_ & -> & _ & _ & _ & Hf) | [(_ & _ & _ & [H | (r & i & H & Hn)]) |
        (events & revision' & t & n & t' & n' & _ & _ & _ & Hc & _ & _ & Ht & _)]].
  - exact Hf.
  - discriminate.
  - injection H as <- <-. contradiction.
  - rewrite Hc. simpl. apply Z.leb_le. exact Ht.
Qed.

(** C5: from every reachable state of a channel, a reconciliation pass at
    [now] on a feed whose normalization is not empty leaves persisted events
    that are strictly ordered by start, pairwise non-overlapping,
    contiguous, and that cover [[now, now + horizon)]. *)
Theorem C5_horizon_covered clock st now force revision items :
  reachable cfg clock st -> clock <= now ->
  normalize now items <> [] ->
  let st' := after (reconcile cfg now force (Fetched revision items) st) in
  ordered_by_start (persisted st')
  /\ non_overlapping (persisted st')
  /\ contiguous (persisted st')
  /\ covers (persisted st') now (now + horizon cfg).
Proof.
  intros Hr Hclock Hne st'.
  pose proof (reachable_well_formed cfg clock st Hr) as Hwf.
  assert (H : exists t n t' n',
             chain (channel_id cfg) t n (persisted st') t' n'
             /\ t <= now /\ targetEndTime cfg now <= t').
  { subst st'.
    destruct (reconcile_cases cfg clock st now force (Fetched revision items)
                Hwf Hclock)
      as [(_ & -> & _ & _ & _ & Hf) | [(_ & _ & _ & [H | (r & i & H & Hn)]) |
          (events & revision' & t & n & t' & n' & _ & Hp & _ & _ & Hch & Ht
           & Htarget & _)]].
    - destruct Hwf as (t & n & t' & n' & Hch & Ht & Hcur).
      exists t, n, t', n'. repeat split; [exact Hch | lia |].
      unfold already_filled in Hf.
      destruct (cursor st) as [c|]; [|discriminate].
      apply Z.leb_le in Hf. specialize (Hcur c eq_refl). lia.
    - discriminate.
    - injection H as <- <-. contradiction.
    - exists t, n, t', n'. rewrite Hp. repeat split; assumption. }
  destruct H as (t & n & t' & n' & Hch & Ht & Htarget).
  split; [exact (chain_ordered _ _ _ _ _ _ Hch)|].
  split; [exact (chain_non_overlapping _ _ _ _ _ _ Hch)|].
  split; [exact (chain_contiguous _ _ _ _ _ _ Hch)|].
  apply (covers_narrow _ t t'); [exact (chain_covers _ _ _ _ _ _ Hch) | lia |].
  exact Htarget.
Qed.


End Properties.

(** C6: placing a feed of two items of 30 and 45 minutes from time 0 up to
    a two-hour target gives exactly four events, [0,30), [30,75), [75,105)
    and [105,150), that air the first item, the second, the first and the
    second again (the last two in the second loop over the feed); their
    sequence numbers continue the channel's last one, so their idempotency
    keys are pairwise distinct although the item GUIDs repeat. *)
Theorem C6_looping_feed (channelId : string) (lastSeq : Z)
  (a b : AutoScheduler.PlayableItem) :
  AutoScheduler.duration a = 30%positive ->
  AutoScheduler.duration b = 45%positive ->
  exists e1 e2 e3 e4,
    AutoScheduler.place channelId 0 lastSeq [a; b] 120
    = AutoScheduler.Placed [e1; e2; e3; e4]
    /\ map (fun e => (AutoScheduler.ev_start e, AutoScheduler.ev_end e,
                      AutoScheduler.ev_item e)) [e1; e2; e3; e4]
       = [(0, 30, AutoScheduler.guid a); (30, 75, AutoScheduler.guid b);
          (75, 105, AutoScheduler.guid a); (105, 150, AutoScheduler.guid b)]%Z
    /\ map AutoScheduler.ev_seq [e1; e2; e3; e4]
       = [lastSeq + 1; lastSeq + 2; lastSeq + 3; lastSeq + 4]%Z
    /\ map AutoScheduler.ev_loop [e1; e2; e3; e4] = [0; 0; 1; 1]%Z
    /\ NoDup (map AutoScheduler.key [e1; e2; e3; e4]).
Proof.
  intros Ha Hb.
  destruct a as [guid_a title_a duration_a earliest_a latest_a feed_a].
  destruct b as [guid_b title_b duration_b earliest_b latest_b feed_b].
  simpl in Ha, Hb. subst duration_a duration_b.
  eexists _, _, _, _.
  split; [unfold AutoScheduler.place; cbn; reflexivity|].
  split; [reflexivity|].
  split; [cbn; repeat (apply (f_equal2 cons); [lia|]); reflexivity|].
  split; [reflexivity|].
  cbn.
  repeat (constructor;
          [ intros Hin;
            repeat (destruct Hin as [Hin | Hin];
                    [injection Hin; lia|]);
            contradiction | ]).
  constructor.
Qed.

(** * Part III: the theorems on concrete runs *)

(** C1, as worded, fails on [?date=&start=2021-10-19T00:00:00Z]: the date
    key is present, yet the range handed to the store is the start
    timestamp and carries no date. *)
Lemma C1_counterexample :
  calls_of (trace (run (ChannelsAPI.serve InMemory.memory) InMemory.tables
                     (ChannelsAPI.get_schedule InMemory.dayjs_stub
                        {| ChannelsAPI.channelId := "news" |}
                        InMemory.empty_date_query InMemory.blank)))
  = [ChannelsAPI.scheduleEvents_getScheduleEventsByChannelId "news"
       {| ChannelsAPI.range_date := None;
          ChannelsAPI.range_start := Some (Num 1634601600000);
          ChannelsAPI.range_end := None |}]
  /\ claimed_rangeOpts InMemory.dayjs_stub InMemory.empty_date_query
     = {| ChannelsAPI.range_date := Some "";
          ChannelsAPI.range_start := None;
          ChannelsAPI.range_end := None |}
  /\ ChannelsAPI.rangeOpts_of InMemory.dayjs_stub InMemory.empty_date_query
     <> claimed_rangeOpts InMemory.dayjs_stub InMemory.empty_date_query.
Proof.
  split; [reflexivity|]. split; [reflexivity|]. discriminate.
Qed.

Lemma C1_range_selection_witness :
  ChannelsAPI.date InMemory.dated_query = Some "2021-10-19"
  /\ "2021-10-19" <> ""
  /\ ChannelsAPI.rangeOpts_of InMemory.dayjs_stub InMemory.dated_query
     = {| ChannelsAPI.range_date := Some "2021-10-19";
          ChannelsAPI.range_start := None;
          ChannelsAPI.range_end := None |}.
Proof.
  split; [reflexivity|]. split; [discriminate|].
  apply (C1_range_selection InMemory.dayjs_stub InMemory.memory InMemory.tables
           {| ChannelsAPI.channelId := "news" |} InMemory.dated_query
           InMemory.blank).
  - reflexivity.
  - discriminate.
Defined.

Lemma C2_query_passthrough_witness :
  ChannelsAPI.db_getScheduleEventsByChannelId InMemory.memory "news"
    (ChannelsAPI.rangeOpts_of InMemory.dayjs_stub InMemory.no_query)
    InMemory.tables
  = Ok [InMemory.opening]
  /\ settled (run (ChannelsAPI.serve InMemory.memory) InMemory.tables
                (ChannelsAPI.get_schedule InMemory.dayjs_stub
                   {| ChannelsAPI.channelId := "news" |}
                   InMemory.no_query InMemory.blank))
     = Ok (ChannelsAPI.send (ChannelsAPI.code InMemory.blank 200)
             (ChannelsAPI.schedule_events [InMemory.opening])).
Proof.
  split; [reflexivity|].
  apply (C2_query_passthrough InMemory.dayjs_stub InMemory.memory InMemory.tables
           {| ChannelsAPI.channelId := "news" |} InMemory.no_query
           InMemory.blank [InMemory.opening]).
  reflexivity.
Defined.

Lemma C3_channel_creation_witness :
  Some "acme.example.com" = Some (body_tenant InMemory.kids)
  /\ ChannelsAPI.db_getChannelById InMemory.memory (body_id InMemory.kids)
       InMemory.tables = Ok None
  /\ settled (run (ChannelsAPI.serve InMemory.memory) InMemory.tables
                (ChannelsAPI.post_channels (Some "acme.example.com")
                   InMemory.kids InMemory.blank))
     = Ok (ChannelsAPI.send (ChannelsAPI.code InMemory.blank 200)
             (ChannelsAPI.channel_item InMemory.kids))
  /\ final (run (ChannelsAPI.serve InMemory.memory) InMemory.tables
              (ChannelsAPI.post_channels (Some "acme.example.com")
                 InMemory.kids InMemory.blank))
     = {| InMemory.channels := [InMemory.news; InMemory.sports; InMemory.kids];
          InMemory.scheduleEvents := [InMemory.opening] |}
  /\ In Orchestrator.sched_listAll
        (calls_of (trace (run scheduler_world []
                            (Orchestrator.scheduler two_retries 1))))
  /\ Orchestrator.channel_write Orchestrator.sched_listAll = false.
Proof.
  split; [reflexivity|]. split; [reflexivity|].
  destruct (C3_channel_creation InMemory.memory InMemory.tables
              (Some "acme.example.com") InMemory.kids InMemory.blank)
    as (_ & _ & _ & _ & Hadded & _ & _ & Hscheduler).
  destruct (Hadded eq_refl eq_refl _ eq_refl) as [Hreply Hstore].
  split; [exact Hreply|]. split; [exact Hstore|].
  assert (Hin : In Orchestrator.sched_listAll
                  (calls_of (trace (run scheduler_world []
                                      (Orchestrator.scheduler two_retries 1)))))
    by (left; reflexivity).
  split; [exact Hin|].
  exact (proj1 (Hscheduler _ scheduler_world [] two_retries 1%nat _ Hin)).
Defined.

Lemma C8_tenant_isolation_witness :
  prefix "localhost" "acme.example.com" = false
  /\ ChannelsAPI.db_list InMemory.memory "acme.example.com" InMemory.tables
     = ChannelsAPI.db_list InMemory.memory "acme.example.com" InMemory.other_tables
  /\ settled (run (ChannelsAPI.serve InMemory.memory) InMemory.tables
                (ChannelsAPI.get_channels (Some "acme.example.com") InMemory.blank))
     = settled (run (ChannelsAPI.serve InMemory.memory) InMemory.other_tables
                  (ChannelsAPI.get_channels (Some "acme.example.com") InMemory.blank)).
Proof.
  split; [reflexivity|]. split; [reflexivity|].
  apply (C8_tenant_isolation InMemory.memory InMemory.memory
           InMemory.tables InMemory.other_tables "acme.example.com" InMemory.blank);
    reflexivity.
Defined.

Lemma C9_store_failure_witness :
  prefix "localhost" "acme.example.com" = false
  /\ ChannelsAPI.db_list InMemory.unreachable "acme.example.com" InMemory.tables
     = Throw (StoreError "unreachable")
  /\ ChannelsAPI.db_getScheduleEventsByChannelId InMemory.unreachable "news"
       (ChannelsAPI.rangeOpts_of InMemory.dayjs_stub InMemory.no_query)
       InMemory.tables
     = Throw (StoreError "unreachable")
  /\ run (ChannelsAPI.serve InMemory.unreachable) InMemory.tables
       (ChannelsAPI.get_channels (Some "acme.example.com") InMemory.blank)
     = {| settled := Pending (Some (ChannelsAPI.code InMemory.blank 500));
          final := InMemory.tables;
          trace := [Printed (Sig := ChannelsAPI.dbSig)
                      (ChannelsAPI.log_info
                         "Listing channels for tenant 'acme.example.com'");
                    Called (Sig := ChannelsAPI.dbSig)
                      (ChannelsAPI.channels_list "acme.example.com");
                    Threw (Sig := ChannelsAPI.dbSig)
                      (ChannelsAPI.channels_list "acme.example.com")
                      (StoreError "unreachable");
                    Printed (Sig := ChannelsAPI.dbSig)
                      (ChannelsAPI.log_error (StoreError "unreachable"))] |}
  /\ settled (run (ChannelsAPI.serve InMemory.unreachable) InMemory.tables
                (ChannelsAPI.get_schedule InMemory.dayjs_stub
                   {| ChannelsAPI.channelId := "news" |}
                   InMemory.no_query InMemory.blank))
     = Pending (Some (ChannelsAPI.code InMemory.blank 500))
  /\ In (Threw (Sig := ChannelsAPI.dbSig)
           (ChannelsAPI.scheduleEvents_getScheduleEventsByChannelId "news"
              (ChannelsAPI.rangeOpts_of InMemory.dayjs_stub InMemory.no_query))
           (StoreError "unreachable"))
        (trace (run (ChannelsAPI.serve InMemory.unreachable) InMemory.tables
                  (ChannelsAPI.get_schedule InMemory.dayjs_stub
                     {| ChannelsAPI.channelId := "news" |}
                     InMemory.no_query InMemory.blank))).
Proof.
  split; [reflexivity|]. split; [reflexivity|]. split; [reflexivity|].
  destruct (C9_store_failure InMemory.unreachable InMemory.dayjs_stub
              InMemory.tables (Some "acme.example.com") "acme.example.com"
              {| ChannelsAPI.channelId := "news" |} InMemory.no_query
              InMemory.blank (StoreError "unreachable"))
    as (_ & Htenant & Hschedule & _).
  split; [exact (Htenant eq_refl eq_refl)|].
  rewrite (Hschedule eq_refl).
  split; [reflexivity | right; left; reflexivity].
Defined.

(** An id for which no channel is stored: the reply is 200 with the empty
    list the store returns. *)
Lemma C10_no_existence_check_witness :
  ChannelsAPI.db_getChannelById InMemory.memory "ghost" InMemory.tables = Ok None
  /\ ChannelsAPI.db_getScheduleEventsByChannelId InMemory.memory "ghost"
       (ChannelsAPI.rangeOpts_of InMemory.dayjs_stub InMemory.no_query)
       InMemory.tables
     = Ok []
  /\ settled (run (ChannelsAPI.serve InMemory.memory) InMemory.tables
                (ChannelsAPI.get_schedule InMemory.dayjs_stub
                   {| ChannelsAPI.channelId := "ghost" |}
                   InMemory.no_query InMemory.blank))
     = Ok (ChannelsAPI.send (ChannelsAPI.code InMemory.blank 200)
             (ChannelsAPI.schedule_events [])).
Proof.
  split; [reflexivity|]. split; [reflexivity|].
  apply (C10_no_existence_check InMemory.dayjs_stub InMemory.memory InMemory.tables
           {| ChannelsAPI.channelId := "ghost" |} InMemory.no_query
           InMemory.blank).
  reflexivity.
Defined.

(** The bootstrap pass of the looping scenario: from the initial state, at
    time 0, the four events are persisted with sequence numbers 1 to 4 and
    the cursor stands at 150. *)
Example looping_bootstrap :
  let p := AutoScheduler.reconcile Looping.channel 0 true Looping.feed_ab
             AutoScheduler.initial in
  map (fun e => (AutoScheduler.ev_start e, AutoScheduler.ev_end e,
                 AutoScheduler.ev_seq e, AutoScheduler.ev_item e))
    (AutoScheduler.persisted (AutoScheduler.after p))
  = [(0, 30, 1, "A"); (30, 75, 2, "B"); (75, 105, 3, "A"); (105, 150, 4, "B")]%Z
  /\ List.length (AutoScheduler.writes p) = 4%nat
  /\ option_map AutoScheduler.lastScheduledEnd
       (AutoScheduler.cursor (AutoScheduler.after p)) = Some 150%Z.
Proof. vm_compute. repeat split. Qed.

(** An empty feed starves the channel and writes nothing. *)
Example empty_feed_starves :
  let p := AutoScheduler.reconcile Looping.channel 0 true
             (AutoScheduler.Fetched "rev-0" []) AutoScheduler.initial in
  AutoScheduler.outcome p = AutoScheduler.Starved
  /\ AutoScheduler.writes p = []
  /\ AutoScheduler.after p = AutoScheduler.initial.
Proof. vm_compute. repeat split. Qed.

Lemma C5_horizon_covered_witness :
  AutoScheduler.reachable Looping.channel 0 AutoScheduler.initial
  /\ (0 <= 0)%Z
  /\ AutoScheduler.normalize 0 [Looping.raw_a; Looping.raw_b] <> []
  /\ AutoScheduler.covers
       (AutoScheduler.persisted
          (AutoScheduler.after
             (AutoScheduler.reconcile Looping.channel 0 true
                (AutoScheduler.Fetched "rev-1" [Looping.raw_a; Looping.raw_b])
                AutoScheduler.initial)))
       0 (0 + AutoScheduler.horizon Looping.channel).
Proof.
  split; [constructor|]. split; [lia|]. split; [vm_compute; discriminate|].
  apply (C5_horizon_covered Looping.channel 0 AutoScheduler.initial 0 true
           "rev-1" [Looping.raw_a; Looping.raw_b]).
  - constructor.
  - lia.
  - vm_compute. discriminate.
Defined.

Lemma C6_looping_feed_witness :
  AutoScheduler.duration Looping.item_a = 30%positive
  /\ AutoScheduler.duration Looping.item_b = 45%positive
  /\ exists e1 e2 e3 e4,
       AutoScheduler.place "news" 0 0 [Looping.item_a; Looping.item_b] 120
       = AutoScheduler.Placed [e1; e2; e3; e4]
       /\ NoDup (map AutoScheduler.key [e1; e2; e3; e4]).
Proof.
  split; [reflexivity|]. split; [reflexivity|].
  destruct (C6_looping_feed "news" 0 Looping.item_a Looping.item_b
              eq_refl eq_refl)
    as (e1 & e2 & e3 & e4 & Hp & _ & _ & _ & Hk).
  exists e1, e2, e3, e4. split; assumption.
Defined.


(** On [localhost:8080] the reply lists the channels of every tenant. *)
Example localhost_lists_all :
  settled (run (ChannelsAPI.serve InMemory.memory) InMemory.tables
             (ChannelsAPI.get_channels (Some "localhost:8080") InMemory.blank))
  = Ok (ChannelsAPI.send (ChannelsAPI.code InMemory.blank 200)
          (ChannelsAPI.channel_list [InMemory.news; InMemory.sports])).
Proof. reflexivity. Qed.

(** A tenant sees its own channels only. *)
Example tenant_lists_own :
  settled (run (ChannelsAPI.serve InMemory.memory) InMemory.tables
             (ChannelsAPI.get_channels (Some "acme.example.com") InMemory.blank))
  = Ok (ChannelsAPI.send (ChannelsAPI.code InMemory.blank 200)
          (ChannelsAPI.channel_list [InMemory.news])).
Proof. reflexivity. Qed.

(** Without a Host header [tenant.match] throws inside the [try]: the reply
    gets status 500 and is never sent. *)
Example no_host_is_500 :
  settled (run (ChannelsAPI.serve InMemory.memory) InMemory.tables
             (ChannelsAPI.get_channels None InMemory.blank))
  = Pending (Some (ChannelsAPI.code InMemory.blank 500)).
Proof. reflexivity. Qed.

(** A second channel with a taken id is refused and the store is as before. *)
Example duplicate_id_is_400 :
  let r := run (ChannelsAPI.serve InMemory.memory) InMemory.tables
             (ChannelsAPI.post_channels (Some "acme.example.com")
                InMemory.news InMemory.blank) in
  settled r
  = Ok (ChannelsAPI.send (ChannelsAPI.code InMemory.blank 400)
          (ChannelsAPI.text "Channel with ID news already exists"))
  /\ final r = InMemory.tables.
Proof. split; reflexivity. Qed.

(** * Part IV: further properties of the handlers and of [start] *)

(** Case analysis on membership in a concrete trace. *)
Ltac trace_cases :=
  repeat match goal with
         | H : In _ (_ :: _) |- _ => destruct H as [H | H]
         | H : In _ [] |- _ => destruct H
         | H : _ \/ _ |- _ => destruct H as [H | H]
         | H : False |- _ => destruct H
         | H : Threw _ _ = Threw _ _ |- _ => inversion H; subst; clear H
         | H : Printed _ = Printed _ |- _ => inversion H; subst; clear H
         | H : Ok _ = Ok _ |- _ => inversion H; subst; clear H
         | H : _ = _ |- _ => discriminate H
         end;
  try congruence.

Section WritePath.
Import ChannelsAPI.
Context {M : Models}.
Context {S : Type}.
Variable db : Database S.

(** X1: [POST /channels] never rejects.  When the lookup of the id throws,
    the reply is 500 carrying the thrown error, [add] is not called and the
    store is as before; when [add] throws, the reply is 500 carrying that
    error and the store is left in whatever state [add] left it. *)
Theorem post_channels_store_failure (s : S) body reply :
  let r := run (serve db) s
             (post_channels (Some (body_tenant body)) body reply) in
  (forall e, db_getChannelById db (body_id body) s = Throw e ->
     settled r = Ok (send (code reply 500) (thrown e))
     /\ final r = s
     /\ calls_of (trace r) = [channels_getChannelById (body_id body)])
  /\ (forall e s', db_getChannelById db (body_id body) s = Ok None ->
        db_add db (Channel_new body) s = (Throw e, s') ->
        settled r = Ok (send (code reply 500) (thrown e))
        /\ final r = s')
  /\ (forall host,
        exists reply',
          settled (run (serve db) s (post_channels host body reply))
          = Ok reply').
Proof.
  intros r. subst r. split; [|split].
  - intros e He. rewrite post_channels_right_tenant, He. simpl.
    repeat split.
  - intros e s' Hg Ha. rewrite post_channels_right_tenant, Hg, Ha. simpl.
    split; reflexivity.
  - intros host.
    destruct (option_string_cases host (body_tenant body)) as [-> | Hne].
    + rewrite post_channels_right_tenant.
      destruct (db_getChannelById db (body_id body) s) as [[existing|] | e];
        [ | destruct (db_add db (Channel_new body) s) as [[u | e] s'] | ];
        eexists; reflexivity.
    + rewrite (post_channels_wrong_tenant db s host body reply Hne).
      eexists. reflexivity.
Qed.

(** X2: the tenant check of [POST /channels] comes before any access to the
    store: when the Host header is not the body's tenant (in particular when
    the request has no Host header), the reply is 400 and the handler has
    issued no call and logged nothing, whatever the store holds or would
    answer. *)
Theorem post_channels_tenant_first (s : S) host body reply :
  host <> Some (body_tenant body) ->
  let r := run (serve db) s (post_channels host body reply) in
  trace r = []
  /\ final r = s
  /\ settled r = Ok (send (code reply 400)
                       (text ("Expected tenant to be " ++ template host)))
  /\ (host = None ->
      settled r = Ok (send (code reply 400)
                        (text "Expected tenant to be undefined"))).
Proof.
  intros Hne r. subst r.
  rewrite (post_channels_wrong_tenant db s host body reply Hne). simpl.
  repeat split. intros ->. reflexivity.
Qed.

(** X3: the status [POST /channels] replies with is 200, 400 or 500, and it
    is 200 exactly when the call to [add] was made and returned. *)
Theorem post_channels_status (s : S) host body reply reply' :
  let r := run (serve db) s (post_channels host body reply) in
  settled r = Ok reply' ->
  (statusCode reply' = 200 \/ statusCode reply' = 400 \/ statusCode reply' = 500)
  /\ (statusCode reply' = 200
      <-> In (Returned (Sig := dbSig) (channels_add (Channel_new body)))
            (trace r)).
Proof.
  intros r. subst r.
  destruct (option_string_cases host (body_tenant body)) as [-> | Hne].
  - rewrite post_channels_right_tenant.
    destruct (db_getChannelById db (body_id body) s) as [[existing|] | e];
      [ | destruct (db_add db (Channel_new body) s) as [[u | e] s'] | ];
      simpl; intros [= <-]; simpl;
      (split; [auto | split; [intros H | intros H; trace_cases]]);
      try discriminate H; auto.
  - rewrite (post_channels_wrong_tenant db s host body reply Hne). simpl.
    intros [= <-]. simpl.
    split; [auto | split; [discriminate | intros []]].
Qed.

(** X4: posting the same channel twice.  On a store in which a channel that
    was added can be looked up by its id, a first [POST /channels] that
    succeeds is followed by a second, identical one that is refused with
    400: it only looks the id up, does not call [add], and leaves the store
    as the first one left it. *)
Theorem post_channels_twice (s s' : S) host body reply reply2 stored :
  host = Some (body_tenant body) ->
  db_getChannelById db (body_id body) s = Ok None ->
  db_add db (Channel_new body) s = (Ok tt, s') ->
  db_getChannelById db (body_id body) s' = Ok (Some stored) ->
  let r1 := run (serve db) s (post_channels host body reply) in
  let r2 := run (serve db) (final r1) (post_channels host body reply2) in
  settled r1 = Ok (send (code reply 200)
                     (channel_item (Channel_item (Channel_new body))))
  /\ settled r2 = Ok (send (code reply2 400)
                        (text ("Channel with ID " ++ body_id body
                               ++ " already exists")))
  /\ calls_of (trace r2) = [channels_getChannelById (body_id body)]
  /\ final r2 = final r1.
Proof.
  intros -> Hnone Hadd Hfound r1 r2. subst r2 r1.
  rewrite (post_channels_right_tenant db s body reply), Hnone, Hadd. simpl.
  rewrite (post_channels_right_tenant db s' body reply2), Hfound. simpl.
  repeat split.
Qed.

End WritePath.

Section Diagnostics.
Import ChannelsAPI.
Context {M : Models}.
Context {S : Type}.
Variable db : Database S.
Variable dayjs_valueOf : string -> number.

(** X5: no handler fails silently.  In each of the three handlers, every
    error thrown by a store call is handed to [request.log.error], and the
    reply has status 500 exactly when an error was logged; this holds of the
    reply the handler settles with and of the reply it leaves unsent. *)
Theorem errors_are_logged (s : S) host body params query reply :
  let r1 := run (serve db) s (get_channels host reply) in
  let r2 := run (serve db) s (post_channels host body reply) in
  let r3 := run (serve db) s (get_schedule dayjs_valueOf params query reply) in
  (forall c e, In (Threw (Sig := dbSig) c e) (trace r1) ->
     In (Printed (Sig := dbSig) (log_error e)) (trace r1))
  /\ (forall c e, In (Threw (Sig := dbSig) c e) (trace r2) ->
        In (Printed (Sig := dbSig) (log_error e)) (trace r2))
  /\ (forall c e, In (Threw (Sig := dbSig) c e) (trace r3) ->
        In (Printed (Sig := dbSig) (log_error e)) (trace r3))
  /\ (forall reply', settled r1 = Ok reply' ->
        (statusCode reply' = 500
         <-> exists e, In (Printed (Sig := dbSig) (log_error e)) (trace r1)))
  /\ (forall reply', settled r2 = Ok reply' ->
        (statusCode reply' = 500
         <-> exists e, In (Printed (Sig := dbSig) (log_error e)) (trace r2)))
  /\ (forall reply', settled r3 = Ok reply' ->
        (statusCode reply' = 500
         <-> exists e, In (Printed (Sig := dbSig) (log_error e)) (trace r3)))
  /\ (forall t, settled r1 = Pending t ->
        (exists reply', t = Some reply' /\ statusCode reply' = 500)
        /\ exists e, In (Printed (Sig := dbSig) (log_error e)) (trace r1))
  /\ (forall t, settled r3 = Pending t ->
        (exists reply', t = Some reply' /\ statusCode reply' = 500)
        /\ exists e, In (Printed (Sig := dbSig) (log_error e)) (trace r3)).
Proof.
  intros r1 r2 r3.
  (* a run that ends on the catch block of a GET handler *)
  assert (Hcatch : forall (r : run_result dbSig S Reply) e,
             settled r = adopted (code reply 500) ->
             In (Printed (Sig := dbSig) (log_error e)) (trace r) ->
             (forall reply', settled r = Ok reply' ->
                (statusCode reply' = 500
                 <-> exists e, In (Printed (Sig := dbSig) (log_error e)) (trace r)))
             /\ (forall t, settled r = Pending t ->
                   (exists reply', t = Some reply' /\ statusCode reply' = 500)
                   /\ exists e, In (Printed (Sig := dbSig) (log_error e))
                                  (trace r))).
  { intros r e Hs Hin. rewrite Hs. split.
    - intros reply' Hr. apply adopted_ok in Hr. destruct Hr as [-> _].
      split; [intros _; exists e; exact Hin | reflexivity].
    - intros t Hr. apply adopted_pending in Hr. destruct Hr as [-> _].
      split; [eexists; split; reflexivity | exists e; exact Hin]. }
  (* a run that ends with a sent reply of status 200 and no error logged *)
  assert (Hsent : forall (r : run_result dbSig S Reply) payload,
             settled r = Ok (send (code reply 200) payload) ->
             (forall e, ~ In (Printed (Sig := dbSig) (log_error e)) (trace r)) ->
             (forall reply', settled r = Ok reply' ->
                (statusCode reply' = 500
                 <-> exists e, In (Printed (Sig := dbSig) (log_error e)) (trace r)))
             /\ (forall t, settled r = Pending t ->
                   (exists reply', t = Some reply' /\ statusCode reply' = 500)
                   /\ exists e, In (Printed (Sig := dbSig) (log_error e))
                                  (trace r))).
  { intros r payload Hs Hno. rewrite Hs. split.
    - intros reply' [= <-]. simpl. split; [discriminate|].
      intros [e He]. destruct (Hno e He).
    - intros t [=]. }
  assert (H1 : (forall c e, In (Threw (Sig := dbSig) c e) (trace r1) ->
                  In (Printed (Sig := dbSig) (log_error e)) (trace r1))
               /\ (forall reply', settled r1 = Ok reply' ->
                     (statusCode reply' = 500
                      <-> exists e, In (Printed (Sig := dbSig) (log_error e))
                                      (trace r1)))
               /\ (forall t, settled r1 = Pending t ->
                     (exists reply', t = Some reply' /\ statusCode reply' = 500)
                     /\ exists e, In (Printed (Sig := dbSig) (log_error e))
                                    (trace r1))).
  { subst r1. destruct host as [h|].
    - destruct (prefix "localhost" h) eqn:Hp.
      + rewrite (get_channels_localhost db s h reply Hp).
        destruct (db_listAll db s) as [channels | e]; split.
        * intros c e H. simpl in H. trace_cases.
        * apply (Hsent _ (channel_list channels)); [reflexivity|].
          intros e H. simpl in H. trace_cases.
        * intros c e' H. simpl in H. trace_cases. simpl. auto.
        * apply (Hcatch _ e); [reflexivity | simpl; auto].
      + rewrite (get_channels_tenant db s h reply Hp).
        destruct (db_list db h s) as [channels | e]; split.
        * intros c e H. simpl in H. trace_cases.
        * apply (Hsent _ (channel_list channels)); [reflexivity|].
          intros e H. simpl in H. trace_cases.
        * intros c e' H. simpl in H. trace_cases. simpl. auto 6.
        * apply (Hcatch _ e); [reflexivity | simpl; auto 6].
    - rewrite get_channels_no_host. split.
      + intros c e H. simpl in H. trace_cases.
      + eapply Hcatch; [reflexivity | simpl; left; reflexivity]. }
  assert (H2 : (forall c e, In (Threw (Sig := dbSig) c e) (trace r2) ->
                  In (Printed (Sig := dbSig) (log_error e)) (trace r2))
               /\ (forall reply', settled r2 = Ok reply' ->
                     (statusCode reply' = 500
                      <-> exists e, In (Printed (Sig := dbSig) (log_error e))
                                      (trace r2)))).
  { subst r2.
    destruct (option_string_cases host (body_tenant body)) as [-> | Hne].
    - rewrite post_channels_right_tenant.
      destruct (db_getChannelById db (body_id body) s) as [[existing|] | e];
        [ | destruct (db_add db (Channel_new body) s) as [[u | e] s'] | ];
        simpl; split.
      all: try (intros c e' H; trace_cases; auto 8).
      all: intros reply' [= <-]; simpl; split;
        try discriminate; try reflexivity.
      all: try (intros [e' H]; trace_cases).
      all: intros _; exists e; auto 8.
    - rewrite (post_channels_wrong_tenant db s host body reply Hne). simpl.
      split.
      + intros c e [].
      + intros reply' [= <-]. simpl. split; [discriminate | intros [e []]]. }
  assert (H3 : (forall c e, In (Threw (Sig := dbSig) c e) (trace r3) ->
                  In (Printed (Sig := dbSig) (log_error e)) (trace r3))
               /\ (forall reply', settled r3 = Ok reply' ->
                     (statusCode reply' = 500
                      <-> exists e, In (Printed (Sig := dbSig) (log_error e))
                                      (trace r3)))
               /\ (forall t, settled r3 = Pending t ->
                     (exists reply', t = Some reply' /\ statusCode reply' = 500)
                     /\ exists e, In (Printed (Sig := dbSig) (log_error e))
                                    (trace r3))).
  { subst r3.
    destruct (db_getScheduleEventsByChannelId db (channelId params)
                (rangeOpts_of dayjs_valueOf query) s) as [events | e] eqn:H.
    - rewrite (get_schedule_ok dayjs_valueOf db s params query reply events H).
      split.
      + intros c e H'. simpl in H'. trace_cases.
      + apply (Hsent _ (schedule_events events)); [reflexivity|].
        intros e H'. simpl in H'. trace_cases.
    - rewrite (get_schedule_throw dayjs_valueOf db s params query reply e H).
      split.
      + intros c e' H'. simpl in H'. trace_cases. simpl. auto.
      + apply (Hcatch _ e); [reflexivity | simpl; auto]. }
  destruct H1 as (H1a & H1b & H1c), H2 as [H2a H2b], H3 as (H3a & H3b & H3c).
  split; [exact H1a|]. split; [exact H2a|]. split; [exact H3a|].
  split; [exact H1b|]. split; [exact H2b|]. split; [exact H3b|].
  split; [exact H1c | exact H3c].
Qed.

(** X6: the range the schedule handler builds never mixes the two ways of
    selecting: when it carries a date it carries neither start nor end; the
    date it carries is never the empty string; and it is the empty range
    exactly when none of the three query parameters is a non-empty
    string. *)
Theorem rangeOpts_exclusive (query : IAPIScheduleQuery) :
  let r := rangeOpts_of dayjs_valueOf query in
  (range_date r <> None -> range_start r = None /\ range_end r = None)
  /\ range_date r <> Some ""
  /\ (r = {| range_date := None; range_start := None; range_end := None |}
      <-> truthy (date query) = false
          /\ truthy (start query) = false
          /\ truthy (end_ query) = false).
Proof.
  intros r. subst r. unfold rangeOpts_of.
  destruct query as [d st en]; simpl.
  destruct d as [d|]; simpl.
  - destruct (d =? "") eqn:Hd; simpl.
    + split; [intros H; contradiction|]. split; [discriminate|].
      destruct st as [st|], en as [en|]; simpl;
        try destruct (st =? ""); try destruct (en =? ""); simpl;
        split; try (intros [_ [? ?]]); try (intros [= ]);
        try discriminate; auto.
    + split; [auto|]. split.
      * intros [= ->]. discriminate.
      * split; [intros [=] | intros [? _]; discriminate].
  - split; [intros H; contradiction|]. split; [discriminate|].
    destruct st as [st|], en as [en|]; simpl;
      try destruct (st =? ""); try destruct (en =? ""); simpl;
      split; try (intros [_ [? ?]]); try (intros [= ]);
      try discriminate; auto.
Qed.

(** X7: the two GET handlers answer a request only when the store call
    returned.  On a reply that was not sent before, the promise of
    [GET /channels] and of the schedule handler is fulfilled exactly when no
    error was logged, and then with a sent reply of status 200; whenever the
    catch block ran (a store call threw, or the request had no Host header,
    in which case the store is not even asked), the reply has status 500 but
    is never sent, and the promise stays pending.  [POST /channels], in
    contrast, always settles with a reply that was sent. *)
Theorem get_errors_unanswered (s : S) host body params query reply :
  sent reply = None ->
  let r1 := run (serve db) s (get_channels host reply) in
  let r2 := run (serve db) s (post_channels host body reply) in
  let r3 := run (serve db) s (get_schedule dayjs_valueOf params query reply) in
  (settled r1 = Pending (Some (code reply 500))
   <-> exists e, In (Printed (Sig := dbSig) (log_error e)) (trace r1))
  /\ ((exists reply', settled r1 = Ok reply')
      <-> ~ exists e, In (Printed (Sig := dbSig) (log_error e)) (trace r1))
  /\ (forall reply', settled r1 = Ok reply' ->
        statusCode reply' = 200 /\ sent reply' <> None)
  /\ (settled r3 = Pending (Some (code reply 500))
      <-> exists e, In (Printed (Sig := dbSig) (log_error e)) (trace r3))
  /\ ((exists reply', settled r3 = Ok reply')
      <-> ~ exists e, In (Printed (Sig := dbSig) (log_error e)) (trace r3))
  /\ (forall reply', settled r3 = Ok reply' ->
        statusCode reply' = 200 /\ sent reply' <> None)
  /\ (exists reply' payload, settled r2 = Ok reply' /\ sent reply' = Some payload)
  /\ (host = None ->
      settled r1 = Pending (Some (code reply 500))
      /\ calls_of (trace r1) = []).
Proof.
  intros Hfresh r1 r2 r3.
  assert (Hcatch : forall (r : run_result dbSig S Reply) e,
             settled r = adopted (code reply 500) ->
             In (Printed (Sig := dbSig) (log_error e)) (trace r) ->
             (settled r = Pending (Some (code reply 500))
              <-> exists e, In (Printed (Sig := dbSig) (log_error e)) (trace r))
             /\ ((exists reply', settled r = Ok reply')
                 <-> ~ exists e, In (Printed (Sig := dbSig) (log_error e)) (trace r))
             /\ (forall reply', settled r = Ok reply' ->
                   statusCode reply' = 200 /\ sent reply' <> None)).
  { intros r e Hs Hin.
    rewrite (adopted_unsent (code reply 500) Hfresh) in Hs. rewrite Hs.
    split; [split; [intros _; exists e; exact Hin | reflexivity]|].
    split.
    - split; [intros [reply' [=]] | intros Hno; destruct Hno; exists e; exact Hin].
    - intros reply' [=]. }
  assert (Hsent : forall (r : run_result dbSig S Reply) payload,
             settled r = Ok (send (code reply 200) payload) ->
             (forall e, ~ In (Printed (Sig := dbSig) (log_error e)) (trace r)) ->
             (settled r = Pending (Some (code reply 500))
              <-> exists e, In (Printed (Sig := dbSig) (log_error e)) (trace r))
             /\ ((exists reply', settled r = Ok reply')
                 <-> ~ exists e, In (Printed (Sig := dbSig) (log_error e)) (trace r))
             /\ (forall reply', settled r = Ok reply' ->
                   statusCode reply' = 200 /\ sent reply' <> None)).
  { intros r payload Hs Hno. rewrite Hs.
    split; [split; [intros [=] | intros [e He]; destruct (Hno e He)]|].
    split.
    - split; [intros _ [e He]; exact (Hno e He) | intros _; eexists; reflexivity].
    - intros reply' [= <-]. simpl. split; [reflexivity | discriminate]. }
  assert (H1 : (settled r1 = Pending (Some (code reply 500))
                <-> exists e, In (Printed (Sig := dbSig) (log_error e)) (trace r1))
               /\ ((exists reply', settled r1 = Ok reply')
                   <-> ~ exists e, In (Printed (Sig := dbSig) (log_error e))
                                     (trace r1))
               /\ (forall reply', settled r1 = Ok reply' ->
                     statusCode reply' = 200 /\ sent reply' <> None)).
  { subst r1. destruct host as [h|].
    - destruct (prefix "localhost" h) eqn:Hp.
      + rewrite (get_channels_localhost db s h reply Hp).
        destruct (db_listAll db s) as [channels | e].
        * apply (Hsent _ (channel_list channels)); [reflexivity|].
          intros e H. simpl in H. trace_cases.
        * apply (Hcatch _ e); [reflexivity | simpl; auto].
      + rewrite (get_channels_tenant db s h reply Hp).
        destruct (db_list db h s) as [channels | e].
        * apply (Hsent _ (channel_list channels)); [reflexivity|].
          intros e H. simpl in H. trace_cases.
        * apply (Hcatch _ e); [reflexivity | simpl; auto 6].
    - rewrite get_channels_no_host.
      eapply Hcatch; [reflexivity | simpl; left; reflexivity]. }
  assert (H3 : (settled r3 = Pending (Some (code reply 500))
                <-> exists e, In (Printed (Sig := dbSig) (log_error e)) (trace r3))
               /\ ((exists reply', settled r3 = Ok reply')
                   <-> ~ exists e, In (Printed (Sig := dbSig) (log_error e))
                                     (trace r3))
               /\ (forall reply', settled r3 = Ok reply' ->
                     statusCode reply' = 200 /\ sent reply' <> None)).
  { subst r3.
    destruct (db_getScheduleEventsByChannelId db (channelId params)
                (rangeOpts_of dayjs_valueOf query) s) as [events | e] eqn:H.
    - rewrite (get_schedule_ok dayjs_valueOf db s params query reply events H).
      apply (Hsent _ (schedule_events events)); [reflexivity|].
      intros e H'. simpl in H'. trace_cases.
    - rewrite (get_schedule_throw dayjs_valueOf db s params query reply e H).
      apply (Hcatch _ e); [reflexivity | simpl; auto]. }
  destruct H1 as (H1a & H1b & H1c), H3 as (H3a & H3b & H3c).
  split; [exact H1a|]. split; [exact H1b|]. split; [exact H1c|].
  split; [exact H3a|]. split; [exact H3b|]. split; [exact H3c|].
  split.
  - subst r2.
    destruct (option_string_cases host (body_tenant body)) as [-> | Hne].
    + rewrite post_channels_right_tenant.
      destruct (db_getChannelById db (body_id body) s) as [[existing|] | e];
        [ | destruct (db_add db (Channel_new body) s) as [[u | e] s'] | ];
        eexists _, _; split; reflexivity.
    + rewrite (post_channels_wrong_tenant db s host body reply Hne).
      eexists _, _. split; reflexivity.
  - intros ->. subst r1. rewrite get_channels_no_host. simpl.
    split; [apply adopted_unsent; exact Hfresh | reflexivity].
Qed.

End Diagnostics.

Section StartupFailures.
Import Server.
Local Open Scope list_scope.

Lemma ends_with {A : Type} (t suffix l : list A) :
  rev t = rev suffix ++ l -> t = rev l ++ suffix.
Proof.
  intros H. rewrite <- (rev_involutive t), H, rev_app_distr, rev_involutive.
  reflexivity.
Qed.

Context {W : Type}.
Variable env : environment sysSig W.

(** Case analysis on a run of [start]: which call, if any, throws first. *)
Ltac start_cases :=
  unfold start, startup_sequence; simpl;
  repeat (match goal with
          | |- context [env ?c ?w] =>
              let res := fresh "res" in
              let w' := fresh "w" in
              destruct (env c w) as [res w'];
              destruct res as [? | ?]; simpl
          end).

(** X8: whatever fails, [start] goes through its calls in program order and
    never twice: the calls of a run are an initial segment of the start-up
    sequence.  In particular the database plugin has been registered before
    the registration of the channels API begins, and the scheduler is
    constructed only after the last plugin has been registered. *)
Theorem start_calls_prefix (w : W) env_DB env_PORT :
  let t := trace (run env w (start env_DB env_PORT)) in
  (exists n, calls_of t = firstn n (startup_sequence env_DB env_PORT))
  /\ before
       (fun e : event sysSig =>
          match e with
                 | Returned (server_register (plugin_db _)) => true
                 | _ => false
                 end)
       (fun e : event sysSig =>
          match e with
                 | Called (server_register (plugin_ChannelsAPI _)) => true
                 | _ => false
                 end) t
  /\ before
       (fun e : event sysSig =>
          match e with
                 | Returned (server_register (plugin_MRSSAutoSchedulerAPI _)) => true
                 | _ => false
                 end)
       (fun e : event sysSig =>
          match e with
                 | Called MRSSAutoScheduler_new => true
                 | _ => false
                 end) t.
Proof.
  intros t. subst t.
  split; [|split; apply preceded_sound].
  - start_cases;
      first [ exists 0%nat; reflexivity | exists 1%nat; reflexivity
            | exists 2%nat; reflexivity | exists 3%nat; reflexivity
            | exists 4%nat; reflexivity | exists 5%nat; reflexivity
            | exists 6%nat; reflexivity | exists 7%nat; reflexivity
            | exists 8%nat; reflexivity | exists 9%nat; reflexivity ].
  - start_cases; reflexivity.
  - start_cases; reflexivity.
Qed.

(** X9: [start] handles no error of its own before [server.listen]: when
    [start()] rejects, it rejects with the error of the call that threw,
    that call is the last thing that happened, the server never listens, and
    nothing has been printed (no [console.error], no [process.exit]). *)
Theorem start_failure_rejects (w : W) env_DB env_PORT e :
  let r := run env w (start env_DB env_PORT) in
  settled r = Throw e ->
  (exists c l, trace r = l ++ [Threw (Sig := sysSig) c e])
  /\ occurrences listens (trace r) = 0%nat
  /\ occurrences (fun x : event sysSig => match x with
                                          | Printed _ => true
                                          | _ => false
                                          end) (trace r) = 0%nat.
Proof.
  intros r. subst r.
  start_cases; intros [= <-]; (split; [|split; reflexivity]);
    eexists _, _; apply (ends_with _ [_]); simpl; reflexivity.
Qed.

(** X10: the callback of [server.listen].  [process.exit] is called only
    when listening failed, with status 1 and right after the error went to
    [console.error]; when listening succeeded the last thing that happens is
    the log line with the address.  In both cases [start()] itself
    resolves. *)
Theorem start_listen_callback (w : W) env_DB env_PORT :
  let r := run env w (start env_DB env_PORT) in
  (forall e, In (Threw (Sig := sysSig) (server_listen (port_of env_PORT)) e)
               (trace r) ->
     settled r = Ok tt
     /\ exists l, trace r
                  = l ++ [Threw (Sig := sysSig) (server_listen (port_of env_PORT)) e;
                          Printed (Sig := sysSig) (console_error e);
                          Printed (Sig := sysSig) (process_exit 1)])
  /\ (forall status, In (Printed (Sig := sysSig) (process_exit status)) (trace r) ->
        status = 1
        /\ exists e, In (Threw (Sig := sysSig)
                           (server_listen (port_of env_PORT)) e) (trace r))
  /\ (In (Returned (Sig := sysSig) (server_listen (port_of env_PORT))) (trace r) ->
      settled r = Ok tt
      /\ exists address l,
           trace r
           = l ++ [Returned (Sig := sysSig) (server_listen (port_of env_PORT));
                   Printed (Sig := sysSig)
                     (console_log ("Server listening at " ++ address)%string)]).
Proof.
  intros r. subst r.
  split; [|split].
  - intros e. start_cases; intros H; trace_cases.
    split; [reflexivity|].
    eexists. apply (ends_with _ [_; _; _]). simpl. reflexivity.
  - intros status. start_cases; intros H; trace_cases.
    split; [reflexivity|]. eexists. do 17 right. left. reflexivity.
  - start_cases; intros H; trace_cases.
    split; [reflexivity|].
    eexists _, _. apply (ends_with _ [_; _]). simpl. reflexivity.
Qed.

End StartupFailures.

(** ** The further properties on concrete runs *)

Lemma post_channels_store_failure_witness :
  ChannelsAPI.db_getChannelById InMemory.unreachable (body_id InMemory.kids)
    InMemory.tables = Throw (StoreError "unreachable")
  /\ settled (run (ChannelsAPI.serve InMemory.unreachable) InMemory.tables
                (ChannelsAPI.post_channels (Some (body_tenant InMemory.kids))
                   InMemory.kids InMemory.blank))
     = Ok (ChannelsAPI.send (ChannelsAPI.code InMemory.blank 500)
             (ChannelsAPI.thrown (StoreError "unreachable"))).
Proof.
  split; [reflexivity|].
  apply (post_channels_store_failure InMemory.unreachable InMemory.tables
           InMemory.kids InMemory.blank).
  reflexivity.
Defined.

Lemma post_channels_tenant_first_witness :
  None <> Some (body_tenant InMemory.kids)
  /\ trace (run (ChannelsAPI.serve InMemory.memory) InMemory.tables
              (ChannelsAPI.post_channels None InMemory.kids InMemory.blank))
     = [].
Proof.
  split; [discriminate|].
  apply (post_channels_tenant_first InMemory.memory InMemory.tables None
           InMemory.kids InMemory.blank).
  discriminate.
Defined.

Lemma post_channels_status_witness :
  settled (run (ChannelsAPI.serve InMemory.memory) InMemory.tables
             (ChannelsAPI.post_channels (Some "acme.example.com")
                InMemory.kids InMemory.blank))
  = Ok (ChannelsAPI.send (ChannelsAPI.code InMemory.blank 200)
          (ChannelsAPI.channel_item InMemory.kids))
  /\ (ChannelsAPI.statusCode
        (ChannelsAPI.send (ChannelsAPI.code InMemory.blank 200)
           (ChannelsAPI.channel_item InMemory.kids)) = 200%Z
      <-> In (Returned (Sig := ChannelsAPI.dbSig)
                (ChannelsAPI.channels_add (Channel_new InMemory.kids)))
             (trace (run (ChannelsAPI.serve InMemory.memory) InMemory.tables
                       (ChannelsAPI.post_channels (Some "acme.example.com")
                          InMemory.kids InMemory.blank)))).
Proof.
  split; [reflexivity|].
  apply (post_channels_status InMemory.memory InMemory.tables
           (Some "acme.example.com") InMemory.kids InMemory.blank).
  reflexivity.
Defined.

Lemma post_channels_twice_witness :
  Some "acme.example.com" = Some (body_tenant InMemory.kids)
  /\ ChannelsAPI.db_getChannelById InMemory.memory (body_id InMemory.kids)
       InMemory.tables = Ok None
  /\ ChannelsAPI.db_getChannelById InMemory.memory (body_id InMemory.kids)
       (snd (ChannelsAPI.db_add InMemory.memory (Channel_new InMemory.kids)
               InMemory.tables))
     = Ok (Some InMemory.kids)
  /\ settled
       (run (ChannelsAPI.serve InMemory.memory)
          (final (run (ChannelsAPI.serve InMemory.memory) InMemory.tables
                    (ChannelsAPI.post_channels (Some "acme.example.com")
                       InMemory.kids InMemory.blank)))
          (ChannelsAPI.post_channels (Some "acme.example.com")
             InMemory.kids InMemory.blank))
     = Ok (ChannelsAPI.send (ChannelsAPI.code InMemory.blank 400)
             (ChannelsAPI.text "Channel with ID kids already exists")).
Proof.
  split; [reflexivity|]. split; [reflexivity|]. split; [reflexivity|].
  apply (post_channels_twice InMemory.memory InMemory.tables
           (snd (ChannelsAPI.db_add InMemory.memory
                   (@Channel_new InMemory.models InMemory.kids)
                   InMemory.tables))
           (Some "acme.example.com") InMemory.kids InMemory.blank InMemory.blank
           InMemory.kids);
    reflexivity.
Defined.

Lemma errors_are_logged_witness :
  In (Threw (Sig := ChannelsAPI.dbSig)
        (ChannelsAPI.channels_getChannelById "kids") (StoreError "unreachable"))
     (trace (run (ChannelsAPI.serve InMemory.unreachable) InMemory.tables
               (ChannelsAPI.post_channels (Some "acme.example.com")
                  InMemory.kids InMemory.blank)))
  /\ In (Printed (Sig := ChannelsAPI.dbSig)
           (ChannelsAPI.log_error (StoreError "unreachable")))
        (trace (run (ChannelsAPI.serve InMemory.unreachable) InMemory.tables
                  (ChannelsAPI.post_channels (Some "acme.example.com")
                     InMemory.kids InMemory.blank))).
Proof.
  assert (H : In (Threw (Sig := ChannelsAPI.dbSig)
                    (ChannelsAPI.channels_getChannelById "kids")
                    (StoreError "unreachable"))
                 (trace (run (ChannelsAPI.serve InMemory.unreachable)
                           InMemory.tables
                           (ChannelsAPI.post_channels (Some "acme.example.com")
                              InMemory.kids InMemory.blank))))
    by (right; left; reflexivity).
  split; [exact H|].
  exact (proj1 (proj2 (errors_are_logged InMemory.unreachable InMemory.dayjs_stub
                         InMemory.tables (Some "acme.example.com") InMemory.kids
                         {| ChannelsAPI.channelId := "news" |} InMemory.no_query
                         InMemory.blank)) _ _ H).
Defined.

Lemma rangeOpts_exclusive_witness :
  ChannelsAPI.range_date
    (ChannelsAPI.rangeOpts_of InMemory.dayjs_stub InMemory.dated_query) <> None
  /\ ChannelsAPI.range_start
       (ChannelsAPI.rangeOpts_of InMemory.dayjs_stub InMemory.dated_query) = None
  /\ ChannelsAPI.range_end
       (ChannelsAPI.rangeOpts_of InMemory.dayjs_stub InMemory.dated_query) = None.
Proof.
  split; [discriminate|].
  apply (rangeOpts_exclusive InMemory.dayjs_stub InMemory.dated_query).
  discriminate.
Defined.

Lemma start_failure_rejects_witness :
  settled (run no_database tt (Server.start None None))
  = Throw (StoreError "connection refused")
  /\ occurrences Server.listens
       (trace (run no_database tt (Server.start None None))) = 0%nat.
Proof.
  split; [reflexivity|].
  apply (start_failure_rejects no_database tt None None
           (StoreError "connection refused")).
  reflexivity.
Defined.

Lemma start_listen_callback_witness :
  In (Threw (Sig := Server.sysSig) (Server.server_listen (Server.port_of None))
        (StoreError "EADDRINUSE"))
     (trace (run port_in_use tt (Server.start None None)))
  /\ settled (run port_in_use tt (Server.start None None)) = Ok tt.
Proof.
  assert (H : In (Threw (Sig := Server.sysSig)
                    (Server.server_listen (Server.port_of None))
                    (StoreError "EADDRINUSE"))
                 (trace (run port_in_use tt (Server.start None None))))
    by (do 17 right; left; reflexivity).
  split; [exact H|].
  exact (proj1 (proj1 (start_listen_callback port_in_use tt None None) _ H)).
Defined.

Section LocalhostPrefix.
Import ChannelsAPI.
Context {M : Models}.
Context {S : Type}.
Variable db : Database S.

(** X11: the localhost test of [GET /channels] is a prefix test on the Host
    header: every Host that begins with [localhost], whatever follows (a
    port, or further labels of a domain name), is answered with the
    channels of all tenants, through the single call [listAll]. *)
Theorem get_channels_localhost_prefix (s : S) (suffix : string) reply channels :
  db_listAll db s = Ok channels ->
  let r := run (serve db) s (get_channels (Some ("localhost" ++ suffix)) reply) in
  settled r = Ok (send (code reply 200) (channel_list channels))
  /\ calls_of (trace r) = [channels_listAll].
Proof.
  intros H r. subst r.
  assert (Hp : prefix "localhost" ("localhost" ++ suffix) = true).
  { simpl. destruct suffix; reflexivity. }
  rewrite (get_channels_localhost db s _ reply Hp), H. simpl.
  split; reflexivity.
Qed.

End LocalhostPrefix.

Lemma get_channels_localhost_prefix_witness :
  ChannelsAPI.db_listAll InMemory.memory InMemory.tables
  = Ok [InMemory.news; InMemory.sports]
  /\ settled (run (ChannelsAPI.serve InMemory.memory) InMemory.tables
                (ChannelsAPI.get_channels
                   (Some ("localhost" ++ ".example.com")) InMemory.blank))
     = Ok (ChannelsAPI.send (ChannelsAPI.code InMemory.blank 200)
             (ChannelsAPI.channel_list [InMemory.news; InMemory.sports])).
Proof.
  split; [reflexivity|].
  apply (get_channels_localhost_prefix InMemory.memory InMemory.tables
           ".example.com" InMemory.blank [InMemory.news; InMemory.sports]).
  reflexivity.
Defined.

(** The scheduler on the looping feed: bootstrap writes the four events in
    one batch; the two ticks that follow find the horizon filled and write
    nothing.  The channel store is asked for [listAll] three times and for
    nothing else. *)
Example scheduler_on_looping_feed :
  let r := run scheduler_world [] (Orchestrator.scheduler two_retries 2) in
  map (fun e => (AutoScheduler.ev_start e, AutoScheduler.ev_end e,
                 AutoScheduler.ev_seq e)) (final r)
  = [(0, 30, 1); (30, 75, 2); (75, 105, 3); (105, 150, 4)]%Z
  /\ occurrences (fun c => match c with
                           | Orchestrator.sched_addEvents _ => true
                           | _ => false
                           end) (calls_of (trace r)) = 1%nat
  /\ filter Orchestrator.channel_call (calls_of (trace r))
     = [Orchestrator.sched_listAll; Orchestrator.sched_listAll;
        Orchestrator.sched_listAll].
Proof. vm_compute. repeat split. Qed.


Lemma get_errors_unanswered_witness :
  ChannelsAPI.sent InMemory.blank = None
  /\ settled (run (ChannelsAPI.serve InMemory.unreachable) InMemory.tables
                (ChannelsAPI.get_schedule InMemory.dayjs_stub
                   {| ChannelsAPI.channelId := "news" |}
                   InMemory.no_query InMemory.blank))
     = Pending (Some (ChannelsAPI.code InMemory.blank 500))
  /\ settled (run (ChannelsAPI.serve InMemory.memory) InMemory.tables
                (ChannelsAPI.get_channels None InMemory.blank))
     = Pending (Some (ChannelsAPI.code InMemory.blank 500)).
Proof.
  split; [reflexivity|].
  destruct (get_errors_unanswered InMemory.unreachable InMemory.dayjs_stub
              InMemory.tables (Some "acme.example.com") InMemory.kids
              {| ChannelsAPI.channelId := "news" |} InMemory.no_query
              InMemory.blank eq_refl)
    as (_ & _ & _ & Hschedule & _).
  split.
  - apply Hschedule. eexists. right. right. left. reflexivity.
  - apply (get_errors_unanswered InMemory.memory InMemory.dayjs_stub
             InMemory.tables None InMemory.kids
             {| ChannelsAPI.channelId := "news" |} InMemory.no_query
             InMemory.blank eq_refl).
    reflexivity.
Defined.
